(** * article-generator: slug utility, browser-storage adapter and the
      step-by-step generation workflow

    A shallow embedding of
      - [src/app/lib/clientStorage.ts]  (createSlug and the localStorage
        backed article collection),
      - [src/app/components/ArticleGenerator.tsx] (completeArticle,
        generateHeadings, generateH2Content, generateAllH2Contents,
        saveStepByStepArticle),
      - [src/app/components/ArticleEditor.tsx] (the change tracking,
        applyParaphrase, handleSave), and
      - loadArticle of [src/app/articles/[slug]/page.tsx] and
        [src/app/articles/[slug]/edit/page.tsx],
    together with the properties the specification states about them
    and further properties of the code. *)

From Stdlib Require Import NArith ZArith List Bool String Ascii Lia Sorted.
From stdpp Require Import base list gmap sorting.
Import ListNotations.

Local Open Scope N_scope.

(** ** JavaScript strings

    A JavaScript string is a sequence of UTF-16 code units; a code unit
    is kept as its number. *)
Module JS.

(** An ASCII literal of the source, as code units. *)
Definition lit (s : string) : list N :=
  List.map N_of_ascii (list_ascii_of_string s).

Definition between (lo hi c : N) : bool := (lo <=? c) && (c <=? hi).

Definition is_digit (c : N) : bool := between 48 57 c.
Definition is_upper (c : N) : bool := between 65 90 c.
Definition is_lower (c : N) : bool := between 97 122 c.
Definition is_ascii (c : N) : bool := c <? 128.

Definition HYPHEN : N := 45.
Definition UNDERSCORE : N := 95.

(** The regular-expression class [\w] (no [u] or [i] flag):
    [A-Za-z0-9_]. *)
Definition is_word (c : N) : bool :=
  is_upper c || is_lower c || is_digit c || (c =? UNDERSCORE).

(** The regular-expression class [\s], which is also what
    [String.prototype.trim] removes: TAB, LF, VT, FF, CR, SPACE, NBSP,
    U+1680, U+2000..U+200A, U+2028, U+2029, U+202F, U+205F, U+3000 and
    U+FEFF. *)
Definition is_space (c : N) : bool :=
  between 9 13 c || (c =? 32) || (c =? 160) || (c =? 5760)
  || between 8192 8202 c || (c =? 8232) || (c =? 8233) || (c =? 8239)
  || (c =? 8287) || (c =? 12288) || (c =? 65279).

(** What [toLowerCase] does to a code unit of the ASCII range. *)
Definition lower_ascii (c : N) : N := if is_upper c then c + 32 else c.

(** [Array.prototype.join]. *)
Fixpoint join (sep : list N) (parts : list (list N)) : list N :=
  match parts with
  | [] => []
  | [p] => p
  | p :: rest => p ++ sep ++ join sep rest
  end.

(** [s.split(sep)] for a one-unit separator: never the empty array. *)
Fixpoint split (sep : N) (s : list N) : list (list N) :=
  match s with
  | [] => [[]]
  | c :: t =>
      if c =? sep then [] :: split sep t
      else match split sep t with
           | [] => [[c]]
           | w :: ws => (c :: w) :: ws
           end
  end.

Fixpoint drop_while (p : N -> bool) (s : list N) : list N :=
  match s with
  | [] => []
  | c :: t => if p c then drop_while p t else s
  end.

(** Removes the longest suffix whose units all satisfy [p]. *)
Fixpoint drop_while_end (p : N -> bool) (s : list N) : list N :=
  match s with
  | [] => []
  | c :: t =>
      match drop_while_end p t with
      | [] => if p c then [] else [c]
      | t' => c :: t'
      end
  end.

(** [String.prototype.trim]. *)
Definition trim (s : list N) : list N :=
  drop_while_end is_space (drop_while is_space s).

(** Truthiness of a string: every string but the empty one. *)
Definition truthy (s : list N) : bool :=
  match s with [] => false | _ => true end.

(** [a === b] on strings. *)
Definition str_eq (a b : list N) : bool := bool_decide (a = b).

(** [Array.prototype.findIndex]: the first position whose element
    satisfies [p], or -1. *)
Fixpoint findIndex_from {A} (p : A -> bool) (l : list A) (i : Z) : Z :=
  match l with
  | [] => (-1)%Z
  | x :: t => if p x then i else findIndex_from p t (i + 1)%Z
  end.

Definition findIndex {A} (p : A -> bool) (l : list A) : Z :=
  findIndex_from p l 0%Z.

(** A value caught by [catch (err)]: an [Error] instance with its
    [message], or anything else. *)
Inductive thrown :=
| Error_instance (message : list N)
| Non_error.

(** How a call ends: it returns a value or it throws. *)
Inductive Completion (A : Type) :=
| Normal (a : A)
| Throw (e : thrown).
Arguments Normal {A} a.
Arguments Throw {A} e.

(** [try { body } catch (error) { return handler }]. *)
Definition try_catch {A} (body : Completion A) (handler : thrown -> A)
  : Completion A :=
  match body with
  | Normal a => Normal a
  | Throw e => Normal (handler e)
  end.

End JS.

Import JS.

(** ** The slug utility and the browser-storage adapter
    ([src/app/lib/clientStorage.ts]) *)
Module ClientStorage.

(** *** createSlug *)

(** [.replace(/[^\w\s-]/g, '')]: every unit outside the class is
    deleted. *)
Definition kept_by_strip (c : N) : bool :=
  is_word c || is_space c || (c =? HYPHEN).

Definition strip_special (s : list N) : list N :=
  List.filter kept_by_strip s.

(** The class [[\s_-]]. *)
Definition is_separator (c : N) : bool :=
  is_space c || (c =? UNDERSCORE) || (c =? HYPHEN).

(** [.replace(/[\s_-]+/g, '-')]: each maximal run of separators becomes
    one hyphen.  [in_run] tells that the unit before was a separator,
    whose hyphen is already written. *)
Fixpoint collapse_from (in_run : bool) (s : list N) : list N :=
  match s with
  | [] => []
  | c :: t =>
      if is_separator c
      then (if in_run then collapse_from true t
            else HYPHEN :: collapse_from true t)
      else c :: collapse_from false t
  end.

Definition collapse_separators (s : list N) : list N :=
  collapse_from false s.

Definition is_hyphen (c : N) : bool := c =? HYPHEN.

(** [.replace(/^-+|-+$/g, '')]: the run of hyphens at the start and the
    run of hyphens at the end are deleted. *)
Definition trim_hyphens (s : list N) : list N :=
  drop_while_end is_hyphen (drop_while is_hyphen s).

Section Slug.

(** [String.prototype.toLowerCase] is the engine's; of the Unicode
    case mapping the development uses two facts: on a string of ASCII
    units it maps [A-Z] to [a-z] unit by unit and leaves the rest, and
    its result never holds an ASCII capital. *)
Variable toLowerCase : list N -> list N.

Definition createSlug (title : list N) : list N :=
  trim_hyphens
    (collapse_separators
       (strip_special
          (toLowerCase title))).

(** The algorithm in the specification's words: lowercase; strip every
    character that is not a-z, 0-9, whitespace, or hyphen; collapse
    runs of whitespace/underscore/hyphen into a single hyphen; trim
    leading/trailing hyphens. *)
Definition spec_keeps (c : N) : bool :=
  is_lower c || is_digit c || is_space c || (c =? HYPHEN).

Definition slugify_spec (title : list N) : list N :=
  trim_hyphens
    (collapse_separators
       (List.filter spec_keeps (toLowerCase title))).

(** The same with the underscore left in by the strip step, as the
    class [\w] does. *)
Definition amended_keeps (c : N) : bool :=
  is_lower c || is_digit c || (c =? UNDERSCORE) || is_space c
  || (c =? HYPHEN).

Definition slugify_amended (title : list N) : list N :=
  trim_hyphens
    (collapse_separators
       (List.filter amended_keeps (toLowerCase title))).

End Slug.

(** An instance of [toLowerCase] that is exact on ASCII strings. *)
Definition toLowerCase_ascii (s : list N) : list N := List.map lower_ascii s.

(** *** The article collection kept in localStorage *)

(** A record of the collection as it is at run time.  [title],
    [content] and [metaDescription] are a string or [undefined]
    ([None]): updateClientArticle copies the value of every key of
    [updates] into the record, [undefined] included, and
    [JSON.stringify] then leaves that key out, so the record read back
    has no such field.  [seoScore] is optional in the source. *)
Record ClientArticleMetadata := {
  title : option (list N);
  slug : list N;
  topic : list N;
  keywords : list (list N);
  tone : list N;
  wordCount : Z;
  readabilityScore : Z;
  seoScore : option Z;
  createdAt : list N;
  updatedAt : list N;
  content : option (list N);
  metaDescription : option (list N)
}.

(** [ClientArticleListItem]; its fields carry the prefix [li_]. *)
Record ClientArticleListItem := {
  li_title : option (list N);
  li_slug : list N;
  li_topic : list N;
  li_wordCount : Z;
  li_readabilityScore : Z;
  li_seoScore : option Z;
  li_createdAt : list N;
  li_metaDescription : option (list N)
}.

(** The [updates] object, of type [Partial<Pick<ClientArticleMetadata,
    'content' | 'title' | 'metaDescription'>>].  For each key: [None]
    when the object has no such key, [Some value] when it has, where
    the value is a string or [undefined] ([Some None]: the key is there
    and holds [undefined], which the type allows and the editor
    passes). *)
Record ArticleUpdates := {
  upd_content : option (option (list N));
  upd_title : option (option (list N));
  upd_metaDescription : option (option (list N))
}.

Definition STORAGE_KEY : list N := lit "seo-articles".

(** [localStorage]: string keys to string values. *)
Abbreviation Storage := (gmap (list N) (list N)).

Definition to_list_item (article : ClientArticleMetadata)
  : ClientArticleListItem :=
  {| li_title := title article;
     li_slug := slug article;
     li_topic := topic article;
     li_wordCount := wordCount article;
     li_readabilityScore := readabilityScore article;
     li_seoScore := seoScore article;
     li_createdAt := createdAt article;
     li_metaDescription := metaDescription article |}.

(** [{ ...article, ...updates, updatedAt: now }]: the spread copies
    every key that [updates] has, whatever its value, so a key holding
    [undefined] overwrites the field with [undefined]; a key that
    [updates] does not have leaves the field of [article]. *)
Definition merge_updates (article : ClientArticleMetadata)
    (updates : ArticleUpdates) (now : list N) : ClientArticleMetadata :=
  {| title := default (title article) (upd_title updates);
     slug := slug article;
     topic := topic article;
     keywords := keywords article;
     tone := tone article;
     wordCount := wordCount article;
     readabilityScore := readabilityScore article;
     seoScore := seoScore article;
     createdAt := createdAt article;
     updatedAt := now;
     content := default (content article) (upd_content updates);
     metaDescription :=
       default (metaDescription article) (upd_metaDescription updates) |}.

Section Collection.

(** [JSON.parse] at the type the source gives its result,
    [ClientArticleMetadata[]]: [Throw] is the [SyntaxError] of a text
    that is not JSON.  [JSON.stringify] writes a collection out. *)
Variable JSON_parse : list N -> Completion (list ClientArticleMetadata).
Variable JSON_stringify : list ClientArticleMetadata -> list N.

(** [.sort((a, b) => new Date(b.createdAt).getTime()
                    - new Date(a.createdAt).getTime())]. *)
Variable sort_newest_first :
  list ClientArticleListItem -> list ClientArticleListItem.

(** The [try] block of [getClientArticles]. *)
Definition getClientArticles_try (localStorage : Storage)
  : Completion (list ClientArticleListItem) :=
  match localStorage !! STORAGE_KEY with
  | None => Normal []
  | Some stored =>
      if negb (truthy stored) then Normal []
      else
        match JSON_parse stored with
        | Throw e => Throw e
        | Normal articles =>
            Normal (sort_newest_first (List.map to_list_item articles))
        end
  end.

Definition getClientArticles (localStorage : Storage)
  : Completion (list ClientArticleListItem) :=
  try_catch (getClientArticles_try localStorage) (fun _ => []).

(** The [try] block of [getClientArticleBySlug]; [None] is [null]. *)
Definition getClientArticleBySlug_try (slug0 : list N)
    (localStorage : Storage) : Completion (option ClientArticleMetadata) :=
  match localStorage !! STORAGE_KEY with
  | None => Normal None
  | Some stored =>
      if negb (truthy stored) then Normal None
      else
        match JSON_parse stored with
        | Throw e => Throw e
        | Normal articles =>
            Normal (List.find (fun article => str_eq (slug article) slug0)
                      articles)
        end
  end.

Definition getClientArticleBySlug (slug0 : list N) (localStorage : Storage)
  : Completion (option ClientArticleMetadata) :=
  try_catch (getClientArticleBySlug_try slug0 localStorage) (fun _ => None).

(** The [try] block of [updateClientArticle], with the storage it
    leaves.  [now] is [new Date().toISOString()].  [findIndex] gives
    -1 or a position of [articles], so the assignment
    [articles[index] = ...] always replaces an element. *)
Definition updateClientArticle_try (slug0 : list N)
    (updates : ArticleUpdates) (now : list N) (localStorage : Storage)
  : Completion bool * Storage :=
  match localStorage !! STORAGE_KEY with
  | None => (Normal false, localStorage)
  | Some stored =>
      if negb (truthy stored) then (Normal false, localStorage)
      else
        match JSON_parse stored with
        | Throw e => (Throw e, localStorage)
        | Normal articles =>
            let index :=
              findIndex (fun article => str_eq (slug article) slug0)
                articles in
            if (index <? 0)%Z then (Normal false, localStorage)
            else
              let articles' :=
                alter (fun article => merge_updates article updates now)
                  (Z.to_nat index) articles in
              (Normal true,
               <[STORAGE_KEY := JSON_stringify articles']> localStorage)
        end
  end.

Definition updateClientArticle (slug0 : list N) (updates : ArticleUpdates)
    (now : list N) (localStorage : Storage) : Completion bool * Storage :=
  let '(outcome, localStorage') :=
    updateClientArticle_try slug0 updates now localStorage in
  (try_catch outcome (fun _ => false), localStorage').

(** The [try] block of [deleteClientArticle]. *)
Definition deleteClientArticle_try (slug0 : list N)
    (localStorage : Storage) : Completion bool * Storage :=
  match localStorage !! STORAGE_KEY with
  | None => (Normal false, localStorage)
  | Some stored =>
      if negb (truthy stored) then (Normal false, localStorage)
      else
        match JSON_parse stored with
        | Throw e => (Throw e, localStorage)
        | Normal articles =>
            let filteredArticles :=
              List.filter
                (fun article => negb (str_eq (slug article) slug0))
                articles in
            (Normal true,
             <[STORAGE_KEY := JSON_stringify filteredArticles]>
               localStorage)
        end
  end.

Definition deleteClientArticle (slug0 : list N) (localStorage : Storage)
  : Completion bool * Storage :=
  let '(outcome, localStorage') :=
    deleteClientArticle_try slug0 localStorage in
  (try_catch outcome (fun _ => false), localStorage').

End Collection.

(** *** saveClientArticle *)

(** [Partial<ClientArticleMetadata>] as saveClientArticle reads it: for
    each key it reads, the value when the key is given one ([None]: the
    key is missing or [undefined]). *)
Record ArticleMetadataInput := {
  md_topic : option (list N);
  md_keywords : option (list (list N));
  md_tone : option (list N);
  md_wordCount : option Z;
  md_readabilityScore : option Z;
  md_seoScore : option Z;
  md_createdAt : option (list N);
  md_metaDescription : option (list N)
}.

(** [value || fallback] on an optional string: the empty string is
    falsy too. *)
Definition string_or (value : option (list N)) (fallback : list N)
  : list N :=
  match value with
  | Some text => if truthy text then text else fallback
  | None => fallback
  end.

(** [value || 0] on an optional number. *)
Definition number_or_zero (value : option Z) : Z :=
  match value with
  | Some n => n
  | None => 0%Z
  end.

Section Saving.

Variable toLowerCase : list N -> list N.
Variable JSON_parse : list N -> Completion (list ClientArticleMetadata).
Variable JSON_stringify : list ClientArticleMetadata -> list N.

(** The record that saveClientArticle builds. *)
Definition new_article (title0 content0 : list N)
    (metadata : ArticleMetadataInput) (now : list N)
  : ClientArticleMetadata :=
  {| title := Some title0;
     slug := createSlug toLowerCase title0;
     topic := string_or (md_topic metadata) [];
     keywords := default [] (md_keywords metadata);
     tone := string_or (md_tone metadata) (lit "professional");
     wordCount := number_or_zero (md_wordCount metadata);
     readabilityScore := number_or_zero (md_readabilityScore metadata);
     seoScore := md_seoScore metadata;
     createdAt := string_or (md_createdAt metadata) now;
     updatedAt := now;
     content := Some content0;
     metaDescription := Some (string_or (md_metaDescription metadata) []) |}.

(** [stored ? JSON.parse(stored) : []]. *)
Definition stored_articles (localStorage : Storage)
  : Completion (list ClientArticleMetadata) :=
  match localStorage !! STORAGE_KEY with
  | None => Normal []
  | Some stored => if truthy stored then JSON_parse stored else Normal []
  end.

(** The collection after the upsert: [findIndex] gives -1 or a position
    of [articles], so the assignment replaces an element. *)
Definition upsert (article : ClientArticleMetadata)
    (articles : list ClientArticleMetadata) : list ClientArticleMetadata :=
  let existingIndex :=
    findIndex (fun a => str_eq (slug a) (slug article)) articles in
  if (0 <=? existingIndex)%Z
  then <[Z.to_nat existingIndex := article]> articles
  else articles ++ [article].

(** saveClientArticle: its [catch] logs and throws the error again.
    [now] is [new Date().toISOString()]. *)
Definition saveClientArticle (title0 content0 : list N)
    (metadata : ArticleMetadataInput) (now : list N)
    (localStorage : Storage) : Completion (list N) * Storage :=
  let article := new_article title0 content0 metadata now in
  match stored_articles localStorage with
  | Throw e => (Throw e, localStorage)
  | Normal articles =>
      (Normal (slug article),
       <[STORAGE_KEY := JSON_stringify (upsert article articles)]>
         localStorage)
  end.

End Saving.

(** A small instance of the JSON functions, exact on the text of the
    empty array and on texts that are not JSON. *)
Definition JSON_parse_empty (text : list N)
  : Completion (list ClientArticleMetadata) :=
  if str_eq text (lit "[]") then Normal []
  else Throw (Error_instance (lit "SyntaxError")).

Definition JSON_stringify_empty (articles : list ClientArticleMetadata)
  : list N := lit "[]".

End ClientStorage.

(** ** The step-by-step generation workflow
    ([src/app/components/ArticleGenerator.tsx]) *)
Module ArticleGenerator.

Inductive Tone := professional | casual | formal.

(** The fields of [ArticleGeneratorFormData] that the workflow reads
    through [watch()]. *)
Record FormData := {
  topic : list N;
  keywords : list N;
  tone : Tone
}.

(** Modelled from the spec: the declarations of [SEOContent] and
    [HeadingsGenerationResponse] are not part of [services/api.ts] as
    given; the response of the heading step is
    [{seo_content: {h1_heading, h2_headings[], meta_description, slug}}]. *)
Record SEOContent := {
  h1_heading : list N;
  h2_headings : list (list N);
  meta_description : list N;
  slug : list N
}.

Record HeadingsGenerationResponse := {
  seo_content : SEOContent
}.

(** The request object that both generation functions build
    ([paraphrase_config] is always [undefined]). *)
Record H2ContentRequest := {
  req_topic : list N;
  req_keywords : list (list N);
  req_tone : Tone;
  include_paraphrasing : bool;
  req_seo_content : SEOContent;
  h2_heading : list N;
  previous_content : list N
}.

(** What the workflow reads of the response. *)
Record H2ContentResponse := {
  generated_content : list N;
  word_count : Z
}.

Record H2ContentData := {
  heading : list N;
  content : list N;
  wordCount : Z;
  isGenerated : bool;
  isGenerating : bool;
  error : option (list N)
}.

Inductive GenerationStep := step_setup | step_headings | step_content.

(** The state and the refs of the component that the workflow touches.
    [pageError] is the component's [error] state.  A functional updater
    given to a state setter is applied at once: updaters run in the
    order they were queued, each on the result of the one before, and
    the state is read only by a render. *)
Record State := {
  pageError : option (list N);
  generationStep : GenerationStep;
  headingsResponse : option HeadingsGenerationResponse;
  h2Contents : list H2ContentData;
  isGeneratingAll : bool;
  isGeneratingAllRef : bool;
  generationInProgressRef : bool;
  h2ContentsRef : list H2ContentData;
  headingsResponseRef : option HeadingsGenerationResponse
}.

Definition setError (e : option (list N)) (s : State) : State :=
  {| pageError := e;
     generationStep := generationStep s;
     headingsResponse := headingsResponse s;
     h2Contents := h2Contents s;
     isGeneratingAll := isGeneratingAll s;
     isGeneratingAllRef := isGeneratingAllRef s;
     generationInProgressRef := generationInProgressRef s;
     h2ContentsRef := h2ContentsRef s;
     headingsResponseRef := headingsResponseRef s |}.

Definition setGenerationStep (g : GenerationStep) (s : State) : State :=
  {| pageError := pageError s;
     generationStep := g;
     headingsResponse := headingsResponse s;
     h2Contents := h2Contents s;
     isGeneratingAll := isGeneratingAll s;
     isGeneratingAllRef := isGeneratingAllRef s;
     generationInProgressRef := generationInProgressRef s;
     h2ContentsRef := h2ContentsRef s;
     headingsResponseRef := headingsResponseRef s |}.

Definition setHeadingsResponse (h : option HeadingsGenerationResponse)
    (s : State) : State :=
  {| pageError := pageError s;
     generationStep := generationStep s;
     headingsResponse := h;
     h2Contents := h2Contents s;
     isGeneratingAll := isGeneratingAll s;
     isGeneratingAllRef := isGeneratingAllRef s;
     generationInProgressRef := generationInProgressRef s;
     h2ContentsRef := h2ContentsRef s;
     headingsResponseRef := headingsResponseRef s |}.

(** [setH2Contents((prev) => updater(prev))]. *)
Definition setH2Contents
    (updater : list H2ContentData -> list H2ContentData) (s : State)
  : State :=
  {| pageError := pageError s;
     generationStep := generationStep s;
     headingsResponse := headingsResponse s;
     h2Contents := updater (h2Contents s);
     isGeneratingAll := isGeneratingAll s;
     isGeneratingAllRef := isGeneratingAllRef s;
     generationInProgressRef := generationInProgressRef s;
     h2ContentsRef := h2ContentsRef s;
     headingsResponseRef := headingsResponseRef s |}.

Definition setIsGeneratingAll (b : bool) (s : State) : State :=
  {| pageError := pageError s;
     generationStep := generationStep s;
     headingsResponse := headingsResponse s;
     h2Contents := h2Contents s;
     isGeneratingAll := b;
     isGeneratingAllRef := isGeneratingAllRef s;
     generationInProgressRef := generationInProgressRef s;
     h2ContentsRef := h2ContentsRef s;
     headingsResponseRef := headingsResponseRef s |}.

(** [isGeneratingAllRef.current = b]. *)
Definition set_isGeneratingAllRef (b : bool) (s : State) : State :=
  {| pageError := pageError s;
     generationStep := generationStep s;
     headingsResponse := headingsResponse s;
     h2Contents := h2Contents s;
     isGeneratingAll := isGeneratingAll s;
     isGeneratingAllRef := b;
     generationInProgressRef := generationInProgressRef s;
     h2ContentsRef := h2ContentsRef s;
     headingsResponseRef := headingsResponseRef s |}.

(** [generationInProgressRef.current = b]. *)
Definition set_generationInProgressRef (b : bool) (s : State) : State :=
  {| pageError := pageError s;
     generationStep := generationStep s;
     headingsResponse := headingsResponse s;
     h2Contents := h2Contents s;
     isGeneratingAll := isGeneratingAll s;
     isGeneratingAllRef := isGeneratingAllRef s;
     generationInProgressRef := b;
     h2ContentsRef := h2ContentsRef s;
     headingsResponseRef := headingsResponseRef s |}.

(** The two [useEffect]s that run after a render:
    [h2ContentsRef.current = h2Contents] and
    [headingsResponseRef.current = headingsResponse]. *)
Definition syncRefs (s : State) : State :=
  {| pageError := pageError s;
     generationStep := generationStep s;
     headingsResponse := headingsResponse s;
     h2Contents := h2Contents s;
     isGeneratingAll := isGeneratingAll s;
     isGeneratingAllRef := isGeneratingAllRef s;
     generationInProgressRef := generationInProgressRef s;
     h2ContentsRef := h2Contents s;
     headingsResponseRef := headingsResponse s |}.

(** The component as mounted: the initial values of [useState] and
    [useRef]. *)
Definition mounted : State :=
  {| pageError := None;
     generationStep := step_setup;
     headingsResponse := None;
     h2Contents := [];
     isGeneratingAll := false;
     isGeneratingAllRef := false;
     generationInProgressRef := false;
     h2ContentsRef := [];
     headingsResponseRef := None |}.

Definition BLANK_LINE : list N := [10; 10].

(** The template [`## ${h2.heading}\n\n${h2.content}`]. *)
Definition renderSection (h2 : H2ContentData) : list N :=
  lit "## " ++ heading h2 ++ BLANK_LINE ++ content h2.

(** *** completeArticle *)

Definition completeArticle (s : State) : list N :=
  match headingsResponse s with
  | None => []
  | Some response =>
      let sections :=
        (lit "# " ++ h1_heading (seo_content response))
        :: List.map renderSection
             (List.filter (fun h2 => isGenerated h2 && truthy (content h2))
                (h2Contents s)) in
      join BLANK_LINE sections
  end.

(** The article in the specification's words: the H1 line, then one
    block per section that counts, each after a blank line, in index
    order, and nothing for the other sections. *)
Fixpoint blocks_spec (counts : H2ContentData -> bool)
    (sections : list H2ContentData) : list N :=
  match sections with
  | [] => []
  | h2 :: rest =>
      (if counts h2 then BLANK_LINE ++ renderSection h2 else [])
      ++ blocks_spec counts rest
  end.

Definition assembleArticle_spec (counts : H2ContentData -> bool) (s : State)
  : list N :=
  match headingsResponse s with
  | None => []
  | Some response =>
      lit "# " ++ h1_heading (seo_content response)
      ++ blocks_spec counts (h2Contents s)
  end.

(** *** The pieces shared by the two generation functions *)

(** [data.keywords.split(",").map((k) => k.trim())
      .filter((k) => k.length > 0)]. *)
Definition parseKeywords (text : list N) : list (list N) :=
  List.filter truthy (List.map trim (split 44 text)).

(** [{ ...h2, isGenerating: true, error: undefined }]. *)
Definition started (h2 : H2ContentData) : H2ContentData :=
  {| heading := heading h2; content := content h2;
     wordCount := wordCount h2; isGenerated := isGenerated h2;
     isGenerating := true; error := None |}.

(** [{ ...h2, content: response.generated_content,
       wordCount: response.word_count, isGenerated: true,
       isGenerating: false }]. *)
Definition stored (response : H2ContentResponse) (h2 : H2ContentData)
  : H2ContentData :=
  {| heading := heading h2; content := generated_content response;
     wordCount := word_count response; isGenerated := true;
     isGenerating := false; error := error h2 |}.

(** [{ ...h2, isGenerating: false, error: errorMessage }]. *)
Definition failed (errorMessage : list N) (h2 : H2ContentData)
  : H2ContentData :=
  {| heading := heading h2; content := content h2;
     wordCount := wordCount h2; isGenerated := isGenerated h2;
     isGenerating := false; error := Some errorMessage |}.

(** [prev.map((h2, idx) => idx === i ? f(h2) : h2)]. *)
Definition at_index (i : nat) (f : H2ContentData -> H2ContentData)
    (prev : list H2ContentData) : list H2ContentData :=
  imap (fun idx h2 => if Nat.eqb idx i then f h2 else h2) prev.

(** [err instanceof Error ? err.message
                           : "Failed to generate H2 content"]. *)
Definition errorMessage_of (err : thrown) : list N :=
  match err with
  | Error_instance message => message
  | Non_error => lit "Failed to generate H2 content"
  end.

(** The [previousContent] of section [i], from the snapshot
    [current]. *)
Definition previousContent (current : list H2ContentData) (i : nat)
  : list N :=
  join BLANK_LINE
    (List.map renderSection (List.filter isGenerated (take i current))).

Definition BULK_FAILURE : list N :=
  lit "Failed to generate all content. Please try again.".

(** How the promise of [articleAPI.generateH2Content] settles. *)
Inductive Settled :=
| Fulfilled (response : H2ContentResponse)
| Rejected (err : thrown).

(** The local variables of a run of [generateAllH2Contents]. *)
Record BulkLocals := {
  formData : FormData;
  currentHeadings : HeadingsGenerationResponse;
  currentH2Contents : list H2ContentData
}.

(** An invocation of an async function, suspended at an [await]. *)
Inductive Task :=
| SingleAwait (h2Index : nat) (request : H2ContentRequest)
    (* generateH2Content at [await articleAPI.generateH2Content] *)
| BulkAwait (locals : BulkLocals) (i : nat) (request : H2ContentRequest)
    (* generateAllH2Contents at [await articleAPI.generateH2Content] *)
| BulkPause (locals : BulkLocals) (i : nat).
    (* generateAllH2Contents at the 500 ms [await new Promise] *)

(** *** generateHeadings, after its request is answered *)

Definition generateHeadings_fulfilled (response : HeadingsGenerationResponse)
    (s : State) : State :=
  let initialH2Contents :=
    List.map (fun heading0 =>
                {| heading := heading0; content := []; wordCount := 0%Z;
                   isGenerated := false; isGenerating := false;
                   error := None |})
      (h2_headings (seo_content response)) in
  setGenerationStep step_headings
    (setH2Contents (fun _ => initialH2Contents)
       (setHeadingsResponse (Some response) s)).

Section Workflow.

(** The message of the engine's [TypeError] for reading the named
    property of [null] or [undefined]. *)
Variable typeErrorMessage : list N -> list N.

(** *** generateH2Content *)

(** [catch (err) { ... } finally { ... }] of generateH2Content. *)
Definition generateH2Content_catch (h2Index : nat) (err : thrown)
    (s : State) : State :=
  let errorMessage := errorMessage_of err in
  set_generationInProgressRef false
    (setError (Some errorMessage)
       (setH2Contents (at_index h2Index (failed errorMessage)) s)).

(** From the call to the [await], or to the end when the call returns
    before it. *)
Definition generateH2Content (h2Index : nat) (data : FormData) (s : State)
  : State * option Task :=
  if generationInProgressRef s then (s, None)
  else
    let s := set_generationInProgressRef true s in
    let s := setError None s in
    let s := setH2Contents (at_index h2Index started) s in
    let keywords0 := parseKeywords (keywords data) in
    let currentH2Contents0 := h2ContentsRef s in
    let currentHeadings0 := headingsResponseRef s in
    let previousContent0 := previousContent currentH2Contents0 h2Index in
    match currentHeadings0 with
    | None =>
        (generateH2Content_catch h2Index
           (Error_instance (typeErrorMessage (lit "seo_content"))) s, None)
    | Some response =>
        match currentH2Contents0 !! h2Index with
        | None =>
            (generateH2Content_catch h2Index
               (Error_instance (typeErrorMessage (lit "heading"))) s, None)
        | Some h2 =>
            let request :=
              {| req_topic := topic data;
                 req_keywords := keywords0;
                 req_tone := tone data;
                 include_paraphrasing := false;
                 req_seo_content := seo_content response;
                 h2_heading := heading h2;
                 previous_content := previousContent0 |} in
            (s, Some (SingleAwait h2Index request))
        end
    end.

(** From the settling of the request to the end. *)
Definition generateH2Content_settled (h2Index : nat) (outcome : Settled)
    (s : State) : State :=
  match outcome with
  | Fulfilled response =>
      set_generationInProgressRef false
        (setH2Contents (at_index h2Index (stored response)) s)
  | Rejected err => generateH2Content_catch h2Index err s
  end.

(** *** generateAllH2Contents *)

(** [finally { ... }]. *)
Definition generateAll_finally (s : State) : State :=
  setIsGeneratingAll false
    (set_generationInProgressRef false
       (set_isGeneratingAllRef false s)).

(** The outer [catch (error) { ... }], then [finally]. *)
Definition generateAll_catch (s : State) : State :=
  generateAll_finally (setError (Some BULK_FAILURE) s).

(** The first section at or after position [i] of the loop that is
    not generated; [rest] is the snapshot from position [i] on. *)
Fixpoint first_pending (rest : list H2ContentData) (i : nat)
  : option (nat * H2ContentData) :=
  match rest with
  | [] => None
  | h2 :: rest' =>
      if isGenerated h2 then first_pending rest' (S i) else Some (i, h2)
  end.

(** The request for section [j], whose entry in the snapshot is
    [h2]. *)
Definition generateAll_request (locals : BulkLocals) (j : nat)
    (h2 : H2ContentData) : H2ContentRequest :=
  let data := formData locals in
  {| req_topic := topic data;
     req_keywords := parseKeywords (keywords data);
     req_tone := tone data;
     include_paraphrasing := false;
     req_seo_content := seo_content (currentHeadings locals);
     h2_heading := heading h2;
     previous_content := previousContent (currentH2Contents locals) j |}.

(** [currentH2Contents[i] = { ...currentH2Contents[i], ... }]. *)
Definition generateAll_record (locals : BulkLocals) (i : nat)
    (response : H2ContentResponse) : BulkLocals :=
  {| formData := formData locals;
     currentHeadings := currentHeadings locals;
     currentH2Contents :=
       alter (stored response) i (currentH2Contents locals) |}.

(** The [for] loop, entered with loop variable [i], up to the next
    [await] or to the end of the function. *)
Definition generateAll_loop (locals : BulkLocals) (i : nat) (s : State)
  : State * option Task :=
  match first_pending (drop i (currentH2Contents locals)) i with
  | None => (generateAll_finally (setGenerationStep step_content s), None)
  | Some (j, h2) =>
      let s := setH2Contents (at_index j started) s in
      (s, Some (BulkAwait locals j (generateAll_request locals j h2)))
  end.

(** From the call to the first [await] or to the end.
    [isGeneratingAll0] is the value of the [isGeneratingAll] state that
    the invoked closure captured. *)
Definition generateAllH2Contents (isGeneratingAll0 : bool)
    (data : FormData) (s : State) : State * option Task :=
  if isGeneratingAllRef s || isGeneratingAll0 || generationInProgressRef s
  then (s, None)
  else
    let s := set_isGeneratingAllRef true s in
    let s := set_generationInProgressRef true s in
    let s := setIsGeneratingAll true s in
    match headingsResponseRef s with
    | None => (generateAll_catch s, None)
    | Some response =>
        let locals :=
          {| formData := data;
             currentHeadings := response;
             currentH2Contents := h2ContentsRef s |} in
        if forallb isGenerated (currentH2Contents locals)
        then (generateAll_finally (setGenerationStep step_content s), None)
        else generateAll_loop locals 0 s
    end.

(** From the settling of the request for section [i] to the pause, or
    through the two [catch] blocks to the end. *)
Definition generateAll_settled (locals : BulkLocals) (i : nat)
    (outcome : Settled) (s : State) : State * option Task :=
  match outcome with
  | Fulfilled response =>
      let s := setH2Contents (at_index i (stored response)) s in
      (s, Some (BulkPause (generateAll_record locals i response) i))
  | Rejected err =>
      let errorMessage := errorMessage_of err in
      (generateAll_catch
         (setH2Contents (at_index i (failed errorMessage)) s), None)
  end.

(** After the pause: [i++] and the loop again. *)
Definition generateAll_resumed (locals : BulkLocals) (i : nat) (s : State)
  : State * option Task :=
  generateAll_loop locals (S i) s.

(** *** The component under the events of the page *)

(** The request a task waits for, with the index of its section. *)
Definition awaited (t : option Task) : list (nat * H2ContentRequest) :=
  match t with
  | Some (SingleAwait h2Index request) => [(h2Index, request)]
  | Some (BulkAwait _ i request) => [(i, request)]
  | _ => []
  end.

Record World := {
  state : State;
  pending : list Task;                      (* suspended invocations *)
  requested : list (nat * H2ContentRequest) (* requests sent, oldest first *)
}.

Inductive Event :=
| Call_generateH2Content (h2Index : nat) (data : FormData)
| Call_generateAllH2Contents (isGeneratingAll0 : bool) (data : FormData)
| RequestSettles (k : nat) (outcome : Settled)
| PauseEnds (k : nat)
| EffectsRun
| HeadingsArrive (response : HeadingsGenerationResponse)
| Navigate (g : GenerationStep).

(** A task replaced by what it continues as. *)
Definition continue_task (k : nat) (w : World)
    (next : State * option Task) : World :=
  {| state := next.1;
     pending := delete k (pending w) ++ option_list next.2;
     requested := requested w ++ awaited next.2 |}.

Definition start_task (w : World) (next : State * option Task) : World :=
  {| state := next.1;
     pending := pending w ++ option_list next.2;
     requested := requested w ++ awaited next.2 |}.

Definition with_state (w : World) (s : State) : World :=
  {| state := s; pending := pending w; requested := requested w |}.

Definition step (e : Event) (w : World) : World :=
  match e with
  | Call_generateH2Content h2Index data =>
      start_task w (generateH2Content h2Index data (state w))
  | Call_generateAllH2Contents isGeneratingAll0 data =>
      start_task w (generateAllH2Contents isGeneratingAll0 data (state w))
  | RequestSettles k outcome =>
      match pending w !! k with
      | Some (SingleAwait h2Index _) =>
          continue_task k w
            (generateH2Content_settled h2Index outcome (state w), None)
      | Some (BulkAwait locals i _) =>
          continue_task k w (generateAll_settled locals i outcome (state w))
      | _ => w
      end
  | PauseEnds k =>
      match pending w !! k with
      | Some (BulkPause locals i) =>
          continue_task k w (generateAll_resumed locals i (state w))
      | _ => w
      end
  | EffectsRun => with_state w (syncRefs (state w))
  | HeadingsArrive response =>
      with_state w (generateHeadings_fulfilled response (state w))
  | Navigate g => with_state w (setGenerationStep g (state w))
  end.

Definition initial : World :=
  {| state := mounted; pending := []; requested := [] |}.

Inductive reachable : World -> Prop :=
| reachable_initial : reachable initial
| reachable_step e w : reachable w -> reachable (step e w).

(** *** A whole run of generateAllH2Contents against a given service *)

(** One request, with the index of its section and how it settled. *)
Record Call := {
  call_index : nat;
  call_request : H2ContentRequest;
  call_outcome : Settled
}.

(** Runs a bulk invocation to its end: every request is settled as
    [api] says, every pause ends.  [fuel] bounds the number of
    requests; [None] is a run cut short by it. *)
Fixpoint generateAll_drive (fuel : nat)
    (api : nat -> H2ContentRequest -> Settled)
    (now : State * option Task) : option (State * list Call) :=
  match now with
  | (s, None) => Some (s, [])
  | (s, Some (BulkAwait locals i request)) =>
      match fuel with
      | O => None
      | S fuel' =>
          let outcome := api i request in
          let call :=
            {| call_index := i; call_request := request;
               call_outcome := outcome |} in
          match generateAll_settled locals i outcome s with
          | (s', Some (BulkPause locals' i')) =>
              match generateAll_drive fuel' api
                      (generateAll_resumed locals' i' s') with
              | Some (s'', calls) => Some (s'', call :: calls)
              | None => None
              end
          | (s', _) => Some (s', [call])
          end
      end
  | (s, Some _) => None   (* not where a bulk run waits for a request *)
  end.

Definition generateAllH2Contents_run
    (api : nat -> H2ContentRequest -> Settled)
    (isGeneratingAll0 : bool) (data : FormData) (s : State)
  : option (State * list Call) :=
  generateAll_drive (length (h2ContentsRef s)) api
    (generateAllH2Contents isGeneratingAll0 data s).

(** The same run, as a relation: the loop entered at [i] with
    [locals] in state [s] ends in state [s'] after the requests
    [calls]. *)
Inductive generateAll_runs (api : nat -> H2ContentRequest -> Settled)
  : BulkLocals -> nat -> State -> State -> list Call -> Prop :=
| runs_complete locals i s :
    first_pending (drop i (currentH2Contents locals)) i = None ->
    generateAll_runs api locals i s
      (generateAll_finally (setGenerationStep step_content s)) []
| runs_fail locals i s j h2 err :
    first_pending (drop i (currentH2Contents locals)) i = Some (j, h2) ->
    api j (generateAll_request locals j h2) = Rejected err ->
    generateAll_runs api locals i s
      (generateAll_catch
         (setH2Contents (at_index j (failed (errorMessage_of err)))
            (setH2Contents (at_index j started) s)))
      [{| call_index := j;
          call_request := generateAll_request locals j h2;
          call_outcome := Rejected err |}]
| runs_next locals i s j h2 response s' calls :
    first_pending (drop i (currentH2Contents locals)) i = Some (j, h2) ->
    api j (generateAll_request locals j h2) = Fulfilled response ->
    generateAll_runs api (generateAll_record locals j response) (S j)
      (setH2Contents (at_index j (stored response))
         (setH2Contents (at_index j started) s)) s' calls ->
    generateAll_runs api locals i s s'
      ({| call_index := j;
          call_request := generateAll_request locals j h2;
          call_outcome := Fulfilled response |} :: calls).

(** The positions of the sections of [rest] that are not generated,
    [rest] starting at position [i]. *)
Fixpoint pending_indices (rest : list H2ContentData) (i : nat)
  : list nat :=
  match rest with
  | [] => []
  | h2 :: rest' =>
      if isGenerated h2 then pending_indices rest' (S i)
      else i :: pending_indices rest' (S i)
  end.

(** What a settled request has done to the sections. *)
Definition call_effect (sections : list H2ContentData) (c : Call)
  : list H2ContentData :=
  match call_outcome c with
  | Fulfilled response =>
      at_index (call_index c) (stored response)
        (at_index (call_index c) started sections)
  | Rejected err =>
      at_index (call_index c) (failed (errorMessage_of err))
        (at_index (call_index c) started sections)
  end.

Definition is_rejected (c : Call) : bool :=
  match call_outcome c with Rejected _ => true | Fulfilled _ => false end.

End Workflow.

(** *** The three guards, and what they should be for the suspended
    invocations *)

(** [generationInProgressRef.current], [isGeneratingAllRef.current] and
    the [isGeneratingAll] state. *)
Definition guards (s : State) : bool * bool * bool :=
  (generationInProgressRef s, isGeneratingAllRef s, isGeneratingAll s).

Definition guards_for (suspended : list Task) : option (bool * bool * bool) :=
  match suspended with
  | [] => Some (false, false, false)
  | [SingleAwait _ _] => Some (true, false, false)
  | [BulkAwait _ _ _] => Some (true, true, true)
  | [BulkPause _ _] => Some (true, true, true)
  | _ => None
  end.

(** *** saveStepByStepArticle *)

(** The string of a tone of the form. *)
Definition tone_text (t : Tone) : list N :=
  match t with
  | professional => lit "professional"
  | casual => lit "casual"
  | formal => lit "formal"
  end.

(** [h2Contents.reduce((sum, h2) => sum + h2.wordCount, 0)]. *)
Definition totalWordCount (sections : list H2ContentData) : Z :=
  foldl (fun sum h2 => (sum + wordCount h2)%Z) 0%Z sections.

(** What the function reads of [SaveArticleResponse]. *)
Record SaveArticleResponse := {
  success : bool;
  saved_slug : list N
}.

(** How the promise of [articleAPI.saveArticle] settles. *)
Inductive SaveSettled :=
| SaveFulfilled (response : SaveArticleResponse)
| SaveRejected (err : thrown).

(** What the user sees of a call of saveStepByStepArticle. *)
Inductive SaveResult :=
| SaveSkipped                      (* returned at the guard *)
| SaveNavigated (slug0 : list N)   (* success alert, then the edit page *)
| SaveUnanswered                   (* the service said [success: false] *)
| SaveFailed (message : list N).   (* error alert *)

Section Save.

Variable toLowerCase : list N -> list N.
Variable JSON_parse
  : list N -> Completion (list ClientStorage.ClientArticleMetadata).
Variable JSON_stringify : list ClientStorage.ClientArticleMetadata -> list N.

(** saveStepByStepArticle, with the answer of the service given.  The
    [saving] state, which only the button reads, is left out. *)
Definition saveStepByStepArticle (backend : SaveSettled) (data : FormData)
    (now : list N) (s : State) (localStorage : gmap (list N) (list N))
  : SaveResult * State * gmap (list N) (list N) :=
  match headingsResponse s with
  | None => (SaveSkipped, s, localStorage)
  | Some response =>
      if negb (truthy (completeArticle s))
      then (SaveSkipped, s, localStorage)
      else
        let s := setError None s in
        let keywords0 := parseKeywords (keywords data) in
        let wordCount0 := totalWordCount (h2Contents s) in
        match backend with
        | SaveFulfilled answer =>
            if success answer
            then (SaveNavigated (saved_slug answer), s, localStorage)
            else (SaveUnanswered, s, localStorage)
        | SaveRejected _ =>
            match
              ClientStorage.saveClientArticle toLowerCase JSON_parse
                JSON_stringify (h1_heading (seo_content response))
                (completeArticle s)
                {| ClientStorage.md_topic := Some (topic data);
                   ClientStorage.md_keywords := Some keywords0;
                   ClientStorage.md_tone := Some (tone_text (tone data));
                   ClientStorage.md_wordCount := Some wordCount0;
                   ClientStorage.md_readabilityScore := Some 70%Z;
                   ClientStorage.md_seoScore := None;
                   ClientStorage.md_createdAt := None;
                   ClientStorage.md_metaDescription :=
                     Some (meta_description (seo_content response)) |}
                now localStorage
            with
            | (Normal slug0, localStorage') =>
                (SaveNavigated slug0, s, localStorage')
            | (Throw err, localStorage') =>
                let errorMessage :=
                  match err with
                  | Error_instance message => message
                  | Non_error => lit "Failed to save article"
                  end in
                (SaveFailed errorMessage, setError (Some errorMessage) s,
                 localStorage')
            end
        end
  end.

End Save.

End ArticleGenerator.

(** ** The editor ([src/app/components/ArticleEditor.tsx]) *)
Module ArticleEditor.

(** [s.substring(a, b)] for non-negative integers: both ends are
    clamped to the length and swapped when out of order. *)
Definition substring (s : list N) (a b : nat) : list N :=
  let a' := Nat.min a (length s) in
  let b' := Nat.min b (length s) in
  take (Nat.max a' b' - Nat.min a' b') (drop (Nat.min a' b') s).

(** [s.substring(a)]. *)
Definition substring_from (s : list N) (a : nat) : list N := drop a s.

(** The working copy: the [title], [content] and [metaDescription]
    states of the editor, each holding a string (what the inputs set
    them to, and what they start as for an article whose three fields
    are strings). *)
Record Draft := {
  title : list N;
  content : list N;
  metaDescription : list N
}.




(** applyParaphrase: [selection] is [None] when [contentRef.current] is
    null, else the [selectionStart] and [selectionEnd] of the text
    area.  The result is the working copy and the position the cursor
    is then given. *)
Definition applyParaphrase (selection : option (nat * nat))
    (paraphrasedText : list N) (d : Draft) : Draft * option nat :=
  match selection with
  | None => (d, None)
  | Some (start, end_) =>
      let newContent :=
        substring (content d) 0 start ++ paraphrasedText
        ++ substring_from (content d) end_ in
      ({| title := title d; content := newContent;
          metaDescription := metaDescription d |},
       Some (start + length paraphrasedText)%nat)
  end.

End ArticleEditor.

(** ** Loading an article ([src/app/articles/[slug]/page.tsx] and
    [src/app/articles/[slug]/edit/page.tsx]) *)
Module ArticlePage.

(** The [article] and [error] states of the page. *)
Record PageState := {
  article : option ClientStorage.ClientArticleMetadata;
  error : option (list N)
}.

(** How the promise of [articleAPI.getArticleBySlug] settles. *)
Inductive LoadSettled :=
| LoadFulfilled (response : ClientStorage.ClientArticleMetadata)
| LoadRejected (err : thrown).

Section Load.

Variable JSON_parse
  : list N -> Completion (list ClientStorage.ClientArticleMetadata).

(** loadArticle, with the answer of the service given; the [loading]
    state is left out. *)
Definition loadArticle (backend : LoadSettled) (slug0 : list N)
    (localStorage : gmap (list N) (list N)) (page : PageState)
  : PageState :=
  let page := {| article := article page; error := None |} in
  match backend with
  | LoadFulfilled response =>
      {| article := Some response; error := error page |}
  | LoadRejected _ =>
      match ClientStorage.getClientArticleBySlug JSON_parse slug0
              localStorage with
      | Normal (Some clientArticle) =>
          {| article := Some clientArticle; error := error page |}
      | Normal None =>
          {| article := article page;
             error := Some (lit "Article not found") |}
      | Throw err =>
          {| article := article page;
             error :=
               Some match err with
                    | Error_instance message => message
                    | Non_error => lit "Failed to load article"
                    end |}
      end
  end.

End Load.

End ArticlePage.

(** ** Concrete sessions and stores used to exercise the statements *)
Module Examples.

Import ArticleGenerator.

Definition sample_headings : HeadingsGenerationResponse :=
  {| seo_content :=
       {| h1_heading := lit "Coffee";
          h2_headings := [lit "Beans"; lit "Brewing"];
          meta_description := lit "About coffee";
          slug := lit "coffee" |} |}.

Definition sample_form : FormData :=
  {| topic := lit "coffee brewing";
     keywords := lit "pour over, espresso";
     tone := professional |}.

(** The messages as V8 words them: the headings ref holds [null], an
    element of the sections that is not there is [undefined]. *)
Definition sample_typeErrorMessage (property : list N) : list N :=
  lit "Cannot read properties of "
  ++ (if str_eq property (lit "seo_content") then lit "null"
      else lit "undefined")
  ++ lit " (reading '" ++ property ++ lit "')".

(** A service that answers every request. *)
Definition api_ok (i : nat) (request : H2ContentRequest) : Settled :=
  Fulfilled {| generated_content := lit "Text about " ++ h2_heading request;
               word_count := 3 |}.

(** A service that fails on the second section. *)
Definition api_fails_second (i : nat) (request : H2ContentRequest)
  : Settled :=
  if Nat.eqb i 1 then Rejected (Error_instance (lit "Network Error"))
  else api_ok i request.

(** The page after the headings have arrived and the effects have
    run. *)
Definition world_with_headings : World :=
  step sample_typeErrorMessage EffectsRun
    (step sample_typeErrorMessage (HeadingsArrive sample_headings) initial).

(** ... then with a request for the first section on its way. *)
Definition world_generating : World :=
  step sample_typeErrorMessage (Call_generateH2Content 0 sample_form)
    world_with_headings.

(** ... then with that request answered, the effects run, the first
    section asked for once more (the button then reads "Regenerate")
    and this second request rejected. *)
Definition world_first_generated : World :=
  step sample_typeErrorMessage EffectsRun
    (step sample_typeErrorMessage
       (RequestSettles 0
          (Fulfilled {| generated_content := lit "Text about Beans";
                        word_count := 3 |}))
       world_generating).

Definition world_regenerate_failed : World :=
  step sample_typeErrorMessage EffectsRun
    (step sample_typeErrorMessage
       (RequestSettles 0 (Rejected (Error_instance (lit "Network Error"))))
       (step sample_typeErrorMessage (Call_generateH2Content 0 sample_form)
          world_first_generated)).

(** ... or, from [world_generating], with the request answered by an
    empty text. *)
Definition world_empty_answer : World :=
  step sample_typeErrorMessage
    (RequestSettles 0
       (Fulfilled {| generated_content := []; word_count := 0 |}))
    world_generating.

(** A store whose item under the key is the text of the empty array,
    and one whose item is not JSON. *)
Definition store_empty_array : gmap (list N) (list N) :=
  {[ ClientStorage.STORAGE_KEY := lit "[]" ]}.

Definition store_not_json : gmap (list N) (list N) :=
  {[ ClientStorage.STORAGE_KEY := lit "{oops" ]}.

(** Updates with the one key [content]. *)
Definition sample_updates : ClientStorage.ArticleUpdates :=
  {| ClientStorage.upd_content := Some (Some (lit "new text"));
     ClientStorage.upd_title := None;
     ClientStorage.upd_metaDescription := None |}.

(** Updates as the editor passes them after a change of the content
    alone: all three keys, [title] and [metaDescription] holding
    [undefined]. *)
Definition sample_editor_updates : ClientStorage.ArticleUpdates :=
  {| ClientStorage.upd_content := Some (Some (lit "new text"));
     ClientStorage.upd_title := Some None;
     ClientStorage.upd_metaDescription := Some None |}.

(** A stand-in for the JSON functions that reads back every collection
    it writes: the text of a collection is one number, its code. *)
Definition article_fields (a : ClientStorage.ClientArticleMetadata) :=
  (ClientStorage.title a, ClientStorage.slug a, ClientStorage.topic a,
   ClientStorage.keywords a, ClientStorage.tone a,
   ClientStorage.wordCount a, ClientStorage.readabilityScore a,
   ClientStorage.seoScore a, ClientStorage.createdAt a,
   ClientStorage.updatedAt a, ClientStorage.content a,
   ClientStorage.metaDescription a).

Definition article_of_fields
    (t : option (list N) * list N * list N * list (list N) * list N * Z * Z
         * option Z * list N * list N * option (list N) * option (list N))
  : ClientStorage.ClientArticleMetadata :=
  let '(f1, f2, f3, f4, f5, f6, f7, f8, f9, f10, f11, f12) := t in
  {| ClientStorage.title := f1; ClientStorage.slug := f2;
     ClientStorage.topic := f3; ClientStorage.keywords := f4;
     ClientStorage.tone := f5; ClientStorage.wordCount := f6;
     ClientStorage.readabilityScore := f7; ClientStorage.seoScore := f8;
     ClientStorage.createdAt := f9; ClientStorage.updatedAt := f10;
     ClientStorage.content := f11; ClientStorage.metaDescription := f12 |}.

#[global] Instance article_eq_dec
  : EqDecision ClientStorage.ClientArticleMetadata.
Proof. solve_decision. Defined.

#[global] Instance article_countable
  : Countable ClientStorage.ClientArticleMetadata :=
  inj_countable' article_fields article_of_fields
    (fun a => match a with
              | ClientStorage.Build_ClientArticleMetadata
                  _ _ _ _ _ _ _ _ _ _ _ _ => eq_refl
              end).

Definition JSON_stringify_code
    (articles : list ClientStorage.ClientArticleMetadata) : list N :=
  [Npos (encode articles)].

Definition JSON_parse_code (text : list N)
  : Completion (list ClientStorage.ClientArticleMetadata) :=
  match text with
  | [Npos code] =>
      match decode code with
      | Some articles => Normal articles
      | None => Throw (Error_instance (lit "SyntaxError"))
      end
  | _ => Throw (Error_instance (lit "SyntaxError"))
  end.

Definition sample_metadata : ClientStorage.ArticleMetadataInput :=
  {| ClientStorage.md_topic := Some (lit "coffee brewing");
     ClientStorage.md_keywords := Some [lit "espresso"];
     ClientStorage.md_tone := Some (lit "professional");
     ClientStorage.md_wordCount := Some 6%Z;
     ClientStorage.md_readabilityScore := Some 70%Z;
     ClientStorage.md_seoScore := None;
     ClientStorage.md_createdAt := None;
     ClientStorage.md_metaDescription := Some (lit "About coffee") |}.

Definition sample_now : list N := lit "2024-01-01T00:00:00.000Z".



(** The store after "Coffee Guide" is saved into an empty
    localStorage. *)
Definition store_with_article : gmap (list N) (list N) :=
  (ClientStorage.saveClientArticle ClientStorage.toLowerCase_ascii
     JSON_parse_code JSON_stringify_code (lit "Coffee Guide")
     (lit "Body") sample_metadata sample_now ∅).2.

End Examples.

(** * Properties *)

(** ** Character classes *)

Ltac bool_to_prop :=
  repeat first
    [ rewrite orb_true_iff in * | rewrite andb_true_iff in *
    | rewrite orb_false_iff in * | rewrite andb_false_iff in *
    | rewrite N.leb_le in * | rewrite N.leb_gt in *
    | rewrite N.ltb_lt in * | rewrite N.ltb_ge in *
    | rewrite N.eqb_eq in * | rewrite N.eqb_neq in * ].

Ltac class_unfold :=
  unfold ClientStorage.kept_by_strip, ClientStorage.is_separator,
    ClientStorage.spec_keeps, ClientStorage.amended_keeps,
    ClientStorage.is_hyphen, lower_ascii, is_word, is_space, is_upper,
    is_lower, is_digit, is_ascii, between, HYPHEN, UNDERSCORE in *.

Ltac class_solve := class_unfold; bool_to_prop; lia.

Section SlugFacts.

Import ClientStorage.

Lemma hyphen_is_separator c : is_hyphen c = true -> is_separator c = true.
Proof. class_solve. Qed.

(** *** Runs of separators *)

Lemma collapse_from_length b s :
  (length (collapse_from b s) <= length s)%nat.
Proof.
  revert b. induction s as [|c t IH]; intros b; simpl; [lia|].
  pose proof (IH true). pose proof (IH false).
  destruct (is_separator c); [destruct b|]; simpl; lia.
Qed.

(** A string that [collapse_from true] leaves alone does not start
    with a separator. *)
Lemma collapse_true_fixed_head c t :
  collapse_from true (c :: t) = c :: t -> is_separator c = false.
Proof.
  simpl. destruct (is_separator c) eqn:E; [|reflexivity].
  intros H. pose proof (collapse_from_length true t) as L.
  rewrite H in L. simpl in L. lia.
Qed.

Lemma collapse_from_fixed s :
  (forall b, collapse_from false (collapse_from b s) = collapse_from b s)
  /\ collapse_from true (collapse_from true s) = collapse_from true s.
Proof.
  induction s as [|c t [IH1 IH2]]; [split; [intros []|]; reflexivity|].
  split; [intros b|]; simpl; destruct (is_separator c) eqn:E.
  - destruct b; [apply IH1|]. simpl. rewrite IH2. reflexivity.
  - simpl. rewrite E, IH1. reflexivity.
  - apply IH2.
  - simpl. rewrite E, IH1. reflexivity.
Qed.

Lemma collapse_fixed_drop_while s :
  collapse_from false s = s ->
  collapse_from false (drop_while is_hyphen s) = drop_while is_hyphen s.
Proof.
  destruct s as [|c t]; [reflexivity|]. simpl.
  destruct (is_hyphen c) eqn:Hc.
  - rewrite (hyphen_is_separator _ Hc). intros H. injection H as _ H.
    destruct t as [|c' t']; [reflexivity|].
    pose proof (collapse_true_fixed_head _ _ H) as Hs.
    assert (is_hyphen c' = false) as Hh.
    { destruct (is_hyphen c') eqn:E; [|reflexivity].
      apply hyphen_is_separator in E. congruence. }
    simpl. rewrite Hh. simpl in *. rewrite Hs in *. exact H.
  - intros H. simpl. exact H.
Qed.

Lemma collapse_fixed_drop_while_end s :
  forall b, collapse_from b s = s ->
    collapse_from b (drop_while_end is_hyphen s)
    = drop_while_end is_hyphen s.
Proof.
  induction s as [|c t IH]; intros b H; [reflexivity|].
  assert (collapse_from (is_separator c) t = t
          /\ (is_separator c = true -> b = false /\ c = HYPHEN)) as [Ht Hb].
  { simpl in H. destruct (is_separator c) eqn:E.
    - destruct b.
      + pose proof (collapse_from_length true t) as L.
        rewrite H in L. simpl in L. lia.
      + injection H as -> H. auto.
    - injection H as H. split; [exact H|discriminate]. }
  apply IH in Ht. simpl.
  destruct (drop_while_end is_hyphen t) as [|c' t'] eqn:Et.
  - destruct (is_hyphen c) eqn:Hc; [reflexivity|]. simpl.
    destruct (is_separator c) eqn:E; [|reflexivity].
    destruct (Hb eq_refl) as [_ ->]. discriminate.
  - simpl. destruct (is_separator c) eqn:E.
    + destruct (Hb eq_refl) as [-> ->]. f_equal. exact Ht.
    + f_equal. exact Ht.
Qed.

(** *** Trimming *)

Lemma drop_while_end_head p c t :
  p c = false -> drop_while_end p (c :: t) = c :: drop_while_end p t.
Proof. intros H. simpl. rewrite H. destruct (drop_while_end p t); reflexivity. Qed.

Lemma drop_while_end_idem p s :
  drop_while_end p (drop_while_end p s) = drop_while_end p s.
Proof.
  induction s as [|c t IH]; [reflexivity|]. simpl.
  destruct (drop_while_end p t) as [|c' t'] eqn:E.
  - destruct (p c) eqn:Hc; simpl; [reflexivity|]. rewrite Hc. reflexivity.
  - simpl in *. rewrite IH. reflexivity.
Qed.

Lemma drop_while_head_false p s :
  match drop_while p s with [] => True | c :: _ => p c = false end.
Proof.
  induction s as [|c t IH]; simpl; [exact I|].
  destruct (p c) eqn:E; [exact IH|exact E].
Qed.

Lemma trim_hyphens_idem s : trim_hyphens (trim_hyphens s) = trim_hyphens s.
Proof.
  unfold trim_hyphens.
  pose proof (drop_while_head_false is_hyphen s) as Hh.
  destruct (drop_while is_hyphen s) as [|c t]; [reflexivity|].
  rewrite (drop_while_end_head _ _ _ Hh).
  simpl. rewrite Hh. rewrite drop_while_end_head by exact Hh.
  rewrite drop_while_end_idem. reflexivity.
Qed.

(** *** What the units of the result are *)

Lemma Forall_drop_while (P : N -> Prop) p s :
  Forall P s -> Forall P (drop_while p s).
Proof.
  induction 1 as [|c t Hc Ht IH]; simpl; [constructor|].
  destruct (p c); [exact IH|constructor; assumption].
Qed.

Lemma Forall_drop_while_end (P : N -> Prop) p s :
  Forall P s -> Forall P (drop_while_end p s).
Proof.
  induction 1 as [|c t Hc Ht IH]; simpl; [constructor|].
  destruct (drop_while_end p t) as [|c' t'];
    [destruct (p c); repeat constructor; exact Hc|].
  constructor; [exact Hc|exact IH].
Qed.

Lemma Forall_collapse_from (P : N -> Prop) b s :
  Forall P s ->
  Forall (fun c => c = HYPHEN \/ (P c /\ is_separator c = false))
    (collapse_from b s).
Proof.
  intros H. revert b. induction H as [|c t Hc Ht IH]; intros b; simpl;
    [constructor|].
  destruct (is_separator c) eqn:E; [destruct b|]; auto.
Qed.

End SlugFacts.

Section SlugTheorems.

Import ClientStorage.

Variable toLowerCase : list N -> list N.

(** The two facts about the engine's [toLowerCase]. *)
Hypothesis toLowerCase_on_ascii :
  forall s, Forall (fun c => is_ascii c = true) s ->
            toLowerCase s = List.map lower_ascii s.
Hypothesis toLowerCase_no_capital :
  forall s, Forall (fun c => is_upper c = false) (toLowerCase s).

Lemma Forall_filter_keep (P : N -> Prop) p s :
  Forall P s -> Forall (fun c => P c /\ p c = true) (List.filter p s).
Proof.
  induction 1 as [|c t Hc Ht IH]; simpl; [constructor|].
  destruct (p c) eqn:E; [constructor; auto|exact IH].
Qed.

Lemma filter_fixed p (s : list N) :
  Forall (fun c => p c = true) s -> List.filter p s = s.
Proof.
  induction 1 as [|c t Hc Ht IH]; simpl; [reflexivity|].
  rewrite Hc, IH. reflexivity.
Qed.

Lemma filter_agree p q (s : list N) :
  Forall (fun c => p c = q c) s -> List.filter p s = List.filter q s.
Proof.
  induction 1 as [|c t Hc Ht IH]; simpl; [reflexivity|].
  rewrite Hc, IH. reflexivity.
Qed.

Lemma map_fixed (f : N -> N) s :
  Forall (fun c => f c = c) s -> List.map f s = s.
Proof.
  induction 1 as [|c t Hc Ht IH]; simpl; [reflexivity|].
  rewrite Hc, IH. reflexivity.
Qed.

(** Every unit of a slug is a hyphen, a lowercase ASCII letter or an
    ASCII digit. *)
Lemma createSlug_units title :
  Forall (fun c => c = HYPHEN \/ (is_lower c || is_digit c) = true)
    (createSlug toLowerCase title).
Proof.
  unfold createSlug, trim_hyphens, collapse_separators, strip_special.
  apply Forall_drop_while_end, Forall_drop_while.
  eapply List.Forall_impl;
    [|apply Forall_collapse_from, Forall_filter_keep,
        (toLowerCase_no_capital title)].
  intros c [->|[[Hu Hk] Hs]]; [left; reflexivity|right].
  revert Hu Hk Hs. class_solve.
Qed.

Lemma createSlug_collapsed title :
  collapse_separators (createSlug toLowerCase title)
  = createSlug toLowerCase title.
Proof.
  unfold createSlug, trim_hyphens, collapse_separators.
  apply collapse_fixed_drop_while_end, collapse_fixed_drop_while.
  apply collapse_from_fixed.
Qed.

(** C7.  createSlug is idempotent: a slug consists of a-z, 0-9 and
    single hyphens between them, and each of the four steps leaves
    such a string as it is. *)
Theorem createSlug_idempotent title :
  createSlug toLowerCase (createSlug toLowerCase title)
  = createSlug toLowerCase title.
Proof.
  pose proof (createSlug_units title) as Hu.
  set (T := createSlug toLowerCase title) in *.
  assert (toLowerCase T = T) as Hlow.
  { rewrite toLowerCase_on_ascii.
    - apply map_fixed. eapply List.Forall_impl; [|exact Hu].
      intros c H. simpl in H. unfold lower_ascii.
      destruct (is_upper c) eqn:E; [exfalso|reflexivity].
      revert H E. class_solve.
    - eapply List.Forall_impl; [|exact Hu].
      intros c H. simpl in H. revert H. class_solve. }
  assert (strip_special T = T) as Hstrip.
  { apply filter_fixed. eapply List.Forall_impl; [|exact Hu].
    intros c H. simpl in H. revert H. class_solve. }
  unfold createSlug at 1. fold T. rewrite Hlow, Hstrip.
  subst T. rewrite createSlug_collapsed.
  unfold createSlug at 1. apply trim_hyphens_idem.
Qed.

(** After lowercasing, the class [\w] and the class [a-z0-9_] keep the
    same units. *)
Lemma createSlug_amended title :
  createSlug toLowerCase title = slugify_amended toLowerCase title.
Proof.
  unfold createSlug, slugify_amended, strip_special. do 2 f_equal.
  apply filter_agree.
  eapply List.Forall_impl; [|apply (toLowerCase_no_capital title)].
  intros c H. simpl in H. revert H. class_unfold.
  destruct (65 <=? c) eqn:E1, (c <=? 90) eqn:E2; simpl;
    try discriminate; intros _;
    repeat rewrite <- orb_assoc; reflexivity.
Qed.

Lemma collapse_all_separators s :
  Forall (fun c => is_separator c = true) s ->
  collapse_from true s = []
  /\ (collapse_from false s = [] \/ collapse_from false s = [HYPHEN]).
Proof.
  induction 1 as [|c t Hc Ht [IH1 IH2]]; simpl; [auto|].
  rewrite Hc, IH1. auto.
Qed.

(** A title whose lowercased form has no letter and no digit of the
    ASCII range gives the empty slug. *)
Lemma createSlug_symbols_only title :
  Forall (fun c => (is_lower c || is_digit c) = false) (toLowerCase title) ->
  createSlug toLowerCase title = [].
Proof.
  intros Hsym. unfold createSlug, collapse_separators, strip_special.
  assert (Forall (fun c => is_separator c = true)
            (List.filter kept_by_strip (toLowerCase title))) as Hsep.
  { pose proof (toLowerCase_no_capital title) as Hcap.
    induction Hsym as [|c t Hc Ht IH]; simpl; [constructor|].
    inversion Hcap as [|? ? Hu Hcap']; subst.
    destruct (kept_by_strip c) eqn:Hk; [constructor|]; auto.
    revert Hc Hu Hk. class_solve. }
  destruct (collapse_all_separators _ Hsep) as [_ [-> | ->]]; reflexivity.
Qed.

Lemma createSlug_ascii title :
  Forall (fun c => is_ascii c = true) title ->
  createSlug toLowerCase title = createSlug toLowerCase_ascii title.
Proof.
  intros H. unfold createSlug, toLowerCase_ascii.
  rewrite toLowerCase_on_ascii by exact H. reflexivity.
Qed.

End SlugTheorems.

(** [toLowerCase_ascii] has the two properties assumed of the engine's
    function. *)
Lemma toLowerCase_ascii_on_ascii s :
  Forall (fun c => is_ascii c = true) s ->
  ClientStorage.toLowerCase_ascii s = List.map lower_ascii s.
Proof. reflexivity. Qed.

Lemma toLowerCase_ascii_no_capital s :
  Forall (fun c => is_upper c = false) (ClientStorage.toLowerCase_ascii s).
Proof.
  unfold ClientStorage.toLowerCase_ascii.
  induction s as [|c t IH]; simpl; constructor; [|exact IH].
  unfold lower_ascii. destruct (is_upper c) eqn:E; [|exact E].
  revert E. class_solve.
Qed.

(** ** The article collection *)

Section CollectionFacts.

Import ClientStorage.

Variable JSON_parse : list N -> Completion (list ClientArticleMetadata).
Variable JSON_stringify : list ClientArticleMetadata -> list N.
Variable sort_newest_first :
  list ClientArticleListItem -> list ClientArticleListItem.

Lemma findIndex_from_absent {A} (p : A -> bool) l i :
  Forall (fun x => p x = false) l -> findIndex_from p l i = (-1)%Z.
Proof.
  intros H. revert i. induction H as [|x t Hx Ht IH]; intros i; simpl;
    [reflexivity|].
  rewrite Hx. apply IH.
Qed.

Lemma slug_absent_no_match (slug0 : list N) articles :
  Forall (fun article => slug article <> slug0) articles ->
  Forall (fun article => str_eq (slug article) slug0 = false) articles.
Proof.
  apply List.Forall_impl. intros article H. unfold str_eq.
  apply bool_decide_eq_false. exact H.
Qed.

Lemma filter_all_kept {A} (p : A -> bool) l :
  Forall (fun x => p x = true) l -> List.filter p l = l.
Proof.
  induction 1 as [|x t Hx Ht IH]; simpl; [reflexivity|].
  rewrite Hx, IH. reflexivity.
Qed.

(** The read operations never throw. *)
Lemma getClientArticles_returns (localStorage : Storage) :
  exists items,
    getClientArticles JSON_parse sort_newest_first localStorage
    = Normal items.
Proof.
  unfold getClientArticles.
  destruct (getClientArticles_try _ _ localStorage); simpl; eauto.
Qed.

Lemma getClientArticleBySlug_returns (slug0 : list N)
    (localStorage : Storage) :
  exists found,
    getClientArticleBySlug JSON_parse slug0 localStorage = Normal found.
Proof.
  unfold getClientArticleBySlug.
  destruct (getClientArticleBySlug_try _ _ localStorage); simpl; eauto.
Qed.

Lemma updateClientArticle_returns (slug0 : list N)
    (updates : ArticleUpdates) (now : list N)
    (localStorage : Storage) :
  exists ok localStorage',
    updateClientArticle JSON_parse JSON_stringify slug0 updates now
      localStorage = (Normal ok, localStorage').
Proof.
  unfold updateClientArticle.
  destruct (updateClientArticle_try _ _ _ _ _ localStorage) as [[ok|e] st];
    simpl; eauto.
Qed.

(** Without an item under the key, or with the empty string there,
    update and delete report failure and write nothing. *)
Lemma updateClientArticle_no_collection (slug0 : list N)
    (updates : ArticleUpdates) (now : list N)
    (localStorage : Storage) :
  localStorage !! STORAGE_KEY = None
  \/ localStorage !! STORAGE_KEY = Some [] ->
  updateClientArticle JSON_parse JSON_stringify slug0 updates now
    localStorage = (Normal false, localStorage).
Proof.
  unfold updateClientArticle, updateClientArticle_try.
  intros [-> | ->]; reflexivity.
Qed.

Lemma deleteClientArticle_present (slug0 : list N)
    (localStorage : Storage) (text : list N)
    (articles : list ClientArticleMetadata) :
  localStorage !! STORAGE_KEY = Some text ->
  text <> [] ->
  JSON_parse text = Normal articles ->
  deleteClientArticle JSON_parse JSON_stringify slug0 localStorage
  = (Normal true,
     <[STORAGE_KEY :=
         JSON_stringify
           (List.filter (fun article => negb (str_eq (slug article) slug0))
              articles)]> localStorage).
Proof.
  intros Hget Htext Hparse.
  unfold deleteClientArticle, deleteClientArticle_try.
  rewrite Hget. destruct text as [|c t]; [congruence|]. simpl.
  rewrite Hparse. reflexivity.
Qed.

End CollectionFacts.

(** ** The generation workflow *)

Section ArticleFacts.

Import ArticleGenerator.

(** *** The assembled article *)

Lemma join_cons (sep p : list N) (parts : list (list N)) :
  join sep (p :: parts)
  = p ++ List.concat (List.map (fun q => sep ++ q) parts).
Proof.
  revert p. induction parts as [|q rest IH]; intros p.
  - simpl. rewrite app_nil_r. reflexivity.
  - change (join sep (p :: q :: rest)) with (p ++ sep ++ join sep (q :: rest)).
    rewrite IH. simpl. rewrite <- app_assoc. reflexivity.
Qed.

Lemma blocks_spec_filter counts (sections : list H2ContentData) :
  blocks_spec counts sections
  = List.concat
      (List.map (fun q => BLANK_LINE ++ q)
         (List.map renderSection (List.filter counts sections))).
Proof.
  induction sections as [|h2 rest IH]; [reflexivity|]. simpl.
  destruct (counts h2); simpl; rewrite IH; reflexivity.
Qed.

(** *** Updating one section *)

Lemma at_index_lookup i f (sections : list H2ContentData) j :
  at_index i f sections !! j
  = (if Nat.eqb j i then f else id) <$> sections !! j.
Proof.
  unfold at_index. rewrite list_lookup_imap.
  destruct (sections !! j); simpl; [|reflexivity].
  destruct (Nat.eqb j i); reflexivity.
Qed.

Lemma at_index_lookup_eq i f (sections : list H2ContentData) :
  at_index i f sections !! i = f <$> sections !! i.
Proof. rewrite at_index_lookup, Nat.eqb_refl. reflexivity. Qed.

Lemma at_index_lookup_ne i f (sections : list H2ContentData) j :
  j <> i -> at_index i f sections !! j = sections !! j.
Proof.
  intros H. rewrite at_index_lookup.
  apply Nat.eqb_neq in H. rewrite H.
  destruct (sections !! j); reflexivity.
Qed.

Lemma at_index_length i f (sections : list H2ContentData) :
  length (at_index i f sections) = length sections.
Proof. unfold at_index. apply length_imap. Qed.

Variable typeErrorMessage : list N -> list N.

(** *** generateH2Content *)

(** What a call that gets past the guard and reaches the request has
    done so far. *)
Lemma generateH2Content_awaits h2Index data s s1 t :
  generateH2Content typeErrorMessage h2Index data s = (s1, Some t) ->
  generationInProgressRef s = false
  /\ s1 = setH2Contents (at_index h2Index started)
            (setError None (set_generationInProgressRef true s))
  /\ exists request, t = SingleAwait h2Index request.
Proof.
  unfold generateH2Content.
  destruct (generationInProgressRef s) eqn:Hflag; [discriminate|].
  cbn [headingsResponseRef h2ContentsRef setH2Contents setError
         set_generationInProgressRef].
  destruct (headingsResponseRef s); [|discriminate].
  destruct (h2ContentsRef s !! h2Index); [|discriminate].
  intros H. injection H as <- <-. eauto.
Qed.

(** A call made while a generation is in progress does nothing. *)
Lemma generateH2Content_rejected h2Index data s :
  generationInProgressRef s = true ->
  generateH2Content typeErrorMessage h2Index data s = (s, None).
Proof. intros H. unfold generateH2Content. rewrite H. reflexivity. Qed.

Lemma generateAllH2Contents_rejected isGeneratingAll0 data s :
  generationInProgressRef s = true ->
  generateAllH2Contents isGeneratingAll0 data s = (s, None).
Proof.
  intros H. unfold generateAllH2Contents. rewrite H, !orb_true_r.
  reflexivity.
Qed.

(** The section of a failed call, and the others. *)
Lemma generateH2Content_catch_sections h2Index err s :
  h2Contents (generateH2Content_catch h2Index err s)
  = at_index h2Index (failed (errorMessage_of err)) (h2Contents s).
Proof. reflexivity. Qed.

(** A call that fails before the request is sent: a [TypeError] from
    reading the headings or the section's heading. *)
Lemma generateH2Content_throws_early h2Index data s s' :
  generationInProgressRef s = false ->
  generateH2Content typeErrorMessage h2Index data s = (s', None) ->
  exists msg,
    pageError s' = Some msg
    /\ generationInProgressRef s' = false
    /\ h2Contents s'
       = at_index h2Index (failed msg)
           (at_index h2Index started (h2Contents s)).
Proof.
  intros Hflag. unfold generateH2Content. rewrite Hflag.
  cbn [headingsResponseRef h2ContentsRef setH2Contents setError
         set_generationInProgressRef].
  destruct (headingsResponseRef s).
  - destruct (h2ContentsRef s !! h2Index); [discriminate|].
    intros H. injection H as <-. eexists. repeat split.
  - intros H. injection H as <-. eexists. repeat split.
Qed.

End ArticleFacts.

Section BulkFacts.

Import ArticleGenerator.

Variable api : nat -> H2ContentRequest -> Settled.

(** *** The scan for the next section to generate *)

Lemma first_pending_some rest i j h2 :
  first_pending rest i = Some (j, h2) ->
  exists k,
    j = (i + k)%nat /\ rest !! k = Some h2 /\ isGenerated h2 = false
    /\ pending_indices rest i
       = j :: pending_indices (drop (S k) rest) (S j).
Proof.
  revert i. induction rest as [|h rest' IH]; intros i; simpl;
    [discriminate|].
  destruct (isGenerated h) eqn:Hg.
  - intros H. destruct (IH _ H) as (k & -> & Hk & Hh2 & Hp).
    exists (S k). split; [lia|]. split; [exact Hk|]. split; [exact Hh2|].
    replace (i + S k)%nat with (S i + k)%nat by lia. exact Hp.
  - intros H. injection H as <- <-. exists 0%nat.
    split; [lia|]. split; [reflexivity|]. split; [exact Hg|].
    reflexivity.
Qed.

Lemma first_pending_none rest i :
  first_pending rest i = None ->
  pending_indices rest i = [] /\ forallb isGenerated rest = true.
Proof.
  revert i. induction rest as [|h rest' IH]; intros i; simpl; [auto|].
  destruct (isGenerated h); [apply IH|discriminate].
Qed.

(** The scan from loop position [i] of the snapshot [current]. *)
Lemma first_pending_snapshot (current : list H2ContentData) i j h2 :
  first_pending (drop i current) i = Some (j, h2) ->
  (i <= j)%nat /\ current !! j = Some h2 /\ isGenerated h2 = false
  /\ pending_indices (drop i current) i
     = j :: pending_indices (drop (S j) current) (S j).
Proof.
  intros H. destruct (first_pending_some _ _ _ _ H) as (k & -> & Hk & Hg & Hp).
  rewrite lookup_drop in Hk. rewrite drop_drop in Hp.
  replace (i + S k)%nat with (S (i + k)) in Hp by lia.
  repeat split; [lia|exact Hk|exact Hg|exact Hp].
Qed.

(** The positions listed are positions of sections not generated, and
    they increase. *)
Lemma pending_indices_elem rest i j :
  j ∈ pending_indices rest i ->
  exists k h2,
    j = (i + k)%nat /\ rest !! k = Some h2 /\ isGenerated h2 = false.
Proof.
  revert i. induction rest as [|h rest' IH]; intros i; simpl.
  - intros H. inversion H.
  - destruct (isGenerated h) eqn:Hg.
    + intros H. destruct (IH _ H) as (k & h2 & -> & Hk & Hh2).
      exists (S k), h2. repeat split; [lia|exact Hk|exact Hh2].
    + intros H. apply elem_of_cons in H as [->|H].
      * exists 0%nat, h. repeat split; [lia|exact Hg].
      * destruct (IH _ H) as (k & h2 & -> & Hk & Hh2).
        exists (S k), h2. repeat split; [lia|exact Hk|exact Hh2].
Qed.

Lemma pending_indices_sorted rest i :
  StronglySorted lt (pending_indices rest i).
Proof.
  revert i. induction rest as [|h rest' IH]; intros i; simpl;
    [constructor|].
  destruct (isGenerated h); [apply IH|].
  constructor; [apply IH|].
  apply Forall_forall. intros j Hj.
  destruct (pending_indices_elem _ _ _ Hj) as (k & _ & -> & _). lia.
Qed.

(** *** The run with enough fuel is the run of the relation *)

Lemma generateAll_drive_ended fuel s :
  generateAll_drive fuel api (s, None) = Some (s, []).
Proof. destruct fuel; reflexivity. Qed.

Lemma generateAll_drive_runs fuel locals i s :
  (length (currentH2Contents locals) <= fuel + i)%nat ->
  exists s' calls,
    generateAll_drive fuel api (generateAll_loop locals i s)
    = Some (s', calls)
    /\ generateAll_runs api locals i s s' calls.
Proof.
  revert locals i s. induction fuel as [|fuel IH]; intros locals i s Hlen.
  - unfold generateAll_loop.
    destruct (first_pending (drop i (currentH2Contents locals)) i)
      as [[j h2]|] eqn:Hscan.
    + destruct (first_pending_snapshot _ _ _ _ Hscan) as (Hij & Hj & _).
      apply lookup_lt_Some in Hj. lia.
    + eexists _, _. split; [reflexivity|]. constructor. exact Hscan.
  - unfold generateAll_loop.
    destruct (first_pending (drop i (currentH2Contents locals)) i)
      as [[j h2]|] eqn:Hscan.
    + destruct (first_pending_snapshot _ _ _ _ Hscan) as (Hij & Hj & _).
      cbn [generateAll_drive].
      destruct (api j (generateAll_request locals j h2)) as [response|err]
        eqn:Hapi.
      * cbn [generateAll_settled generateAll_resumed].
        destruct (IH (generateAll_record locals j response) (S j)
                    (setH2Contents (at_index j (stored response))
                       (setH2Contents (at_index j started) s)))
          as (s' & calls & Hdrive & Hruns).
        { cbn [generateAll_record currentH2Contents].
          rewrite length_alter. lia. }
        unfold generateAll_resumed. rewrite Hdrive.
        eexists _, _. split; [reflexivity|].
        eapply runs_next; eassumption.
      * cbn [generateAll_settled].
        eexists _, _. split; [reflexivity|].
        eapply runs_fail; eassumption.
    + eexists _, _. split; [reflexivity|]. constructor. exact Hscan.
Qed.

(** *** What a run has done *)

Lemma runs_indices_prefix locals i s s' calls :
  generateAll_runs api locals i s s' calls ->
  (call_index <$> calls)
    `prefix_of` pending_indices (drop i (currentH2Contents locals)) i.
Proof.
  induction 1 as [locals i s Hscan
                 |locals i s j h2 err Hscan Hapi
                 |locals i s j h2 response s' calls Hscan Hapi Hruns IH].
  - apply prefix_nil.
  - destruct (first_pending_snapshot _ _ _ _ Hscan) as (_ & _ & _ & ->).
    simpl. apply prefix_cons, prefix_nil.
  - destruct (first_pending_snapshot _ _ _ _ Hscan) as (_ & _ & _ & ->).
    simpl. apply prefix_cons.
    cbn [generateAll_record currentH2Contents] in IH.
    rewrite drop_alter_lt in IH by lia. exact IH.
Qed.

Lemma runs_all_fulfilled locals i s s' calls :
  generateAll_runs api locals i s s' calls ->
  Forall (fun c => is_rejected c = false) calls ->
  call_index <$> calls
  = pending_indices (drop i (currentH2Contents locals)) i
  /\ generationStep s' = step_content.
Proof.
  induction 1 as [locals i s Hscan
                 |locals i s j h2 err Hscan Hapi
                 |locals i s j h2 response s' calls Hscan Hapi Hruns IH];
    intros Hok.
  - destruct (first_pending_none _ _ Hscan) as [-> _]. split; reflexivity.
  - inversion Hok as [|? ? Hc _]; subst. discriminate Hc.
  - destruct (first_pending_snapshot _ _ _ _ Hscan) as (_ & _ & _ & ->).
    inversion Hok as [|? ? _ Hok']; subst.
    destruct (IH Hok') as [IH1 IH2]. split; [|exact IH2].
    cbn [generateAll_record currentH2Contents] in IH1.
    rewrite drop_alter_lt in IH1 by lia.
    rewrite fmap_cons, IH1. reflexivity.
Qed.

(** A rejected request is the last one of its run. *)
Lemma runs_rejected_last locals i s s' calls c :
  generateAll_runs api locals i s s' calls ->
  c ∈ calls -> is_rejected c = true ->
  exists calls0,
    calls = calls0 ++ [c]
    /\ Forall (fun c0 => is_rejected c0 = false) calls0
    /\ pageError s' = Some BULK_FAILURE.
Proof.
  induction 1 as [locals i s Hscan
                 |locals i s j h2 err Hscan Hapi
                 |locals i s j h2 response s' calls Hscan Hapi Hruns IH];
    intros Hin Hrej.
  - inversion Hin.
  - apply list_elem_of_singleton in Hin as ->.
    exists []. repeat split. constructor.
  - apply elem_of_cons in Hin as [-> | Hin]; [discriminate Hrej|].
    destruct (IH Hin Hrej) as (calls0 & -> & Hok & Herr).
    eexists (_ :: calls0). split; [reflexivity|].
    split; [constructor; [reflexivity|exact Hok]|exact Herr].
Qed.

Lemma runs_sections locals i s s' calls :
  generateAll_runs api locals i s s' calls ->
  h2Contents s' = foldl call_effect (h2Contents s) calls.
Proof.
  induction 1 as [locals i s Hscan
                 |locals i s j h2 err Hscan Hapi
                 |locals i s j h2 response s' calls Hscan Hapi Hruns IH].
  - reflexivity.
  - reflexivity.
  - rewrite IH. reflexivity.
Qed.

(** However a run ends, the two refs and the state flag are reset. *)
Lemma runs_flags locals i s s' calls :
  generateAll_runs api locals i s s' calls ->
  isGeneratingAllRef s' = false
  /\ generationInProgressRef s' = false
  /\ isGeneratingAll s' = false.
Proof. induction 1; auto. Qed.

(** *** The sections after a sequence of requests *)

Lemma call_effect_lookup_ne sections c j :
  j <> call_index c -> call_effect sections c !! j = sections !! j.
Proof.
  intros H. unfold call_effect.
  destruct (call_outcome c); rewrite !at_index_lookup_ne by exact H;
    reflexivity.
Qed.

Lemma call_effect_lookup_eq sections c :
  call_effect sections c !! call_index c
  = (fun h2 =>
       match call_outcome c with
       | Fulfilled response => stored response (started h2)
       | Rejected err => failed (errorMessage_of err) (started h2)
       end) <$> sections !! call_index c.
Proof.
  unfold call_effect.
  destruct (call_outcome c); rewrite !at_index_lookup_eq;
    destruct (sections !! call_index c); reflexivity.
Qed.

Lemma foldl_call_effect_untouched calls sections j :
  j ∉ call_index <$> calls ->
  foldl call_effect sections calls !! j = sections !! j.
Proof.
  revert sections. induction calls as [|c calls IH]; intros sections Hj;
    [reflexivity|].
  simpl in *. apply not_elem_of_cons in Hj as [Hne Hj].
  rewrite IH by exact Hj. apply call_effect_lookup_ne. exact Hne.
Qed.

Lemma foldl_call_effect_touched calls sections c :
  NoDup (call_index <$> calls) -> c ∈ calls ->
  foldl call_effect sections calls !! call_index c
  = call_effect sections c !! call_index c.
Proof.
  revert sections. induction calls as [|c0 calls IH];
    intros sections Hnd Hin; [inversion Hin|].
  simpl in *. apply NoDup_cons in Hnd as [Hfresh Hnd].
  apply elem_of_cons in Hin as [-> | Hin].
  - apply foldl_call_effect_untouched. exact Hfresh.
  - rewrite IH by assumption.
    assert (call_index c <> call_index c0) as Hne.
    { intros Heq. apply Hfresh. rewrite <- Heq.
      apply list_elem_of_fmap_2. exact Hin. }
    rewrite !call_effect_lookup_eq.
    rewrite call_effect_lookup_ne by exact Hne. reflexivity.
Qed.

Lemma StronglySorted_lt_NoDup (l : list nat) :
  StronglySorted lt l -> NoDup l.
Proof.
  induction 1 as [|x l Hs IH Hall]; [constructor|].
  apply NoDup_cons. split; [|exact IH].
  intros Hin. rewrite Forall_forall in Hall.
  specialize (Hall _ Hin). lia.
Qed.

Lemma prefix_StronglySorted (l k : list nat) :
  l `prefix_of` k -> StronglySorted lt k -> StronglySorted lt l.
Proof. intros [rest ->]. apply StronglySorted_app_1_l. Qed.

(** *** The run from the call *)

(** A run sends no request at all, or it is a run of the loop from
    position 0 over the snapshot of the sections ref. *)
Lemma generateAllH2Contents_run_cases isGeneratingAll0 data s :
  (exists s',
      generateAllH2Contents_run api isGeneratingAll0 data s
      = Some (s', [])
      /\ h2Contents s' = h2Contents s)
  \/ (exists locals s1 s' calls,
        generateAllH2Contents_run api isGeneratingAll0 data s
        = Some (s', calls)
        /\ currentH2Contents locals = h2ContentsRef s
        /\ h2Contents s1 = h2Contents s
        /\ generateAll_runs api locals 0 s1 s' calls).
Proof.
  unfold generateAllH2Contents_run, generateAllH2Contents.
  destruct (isGeneratingAllRef s || isGeneratingAll0
            || generationInProgressRef s).
  { left. rewrite generateAll_drive_ended. eauto. }
  cbn [headingsResponseRef h2ContentsRef setIsGeneratingAll
         set_generationInProgressRef set_isGeneratingAllRef].
  destruct (headingsResponseRef s) as [response|].
  2: { left. rewrite generateAll_drive_ended. eauto. }
  cbn [currentH2Contents].
  destruct (forallb isGenerated (h2ContentsRef s)).
  { left. rewrite generateAll_drive_ended. eauto. }
  right.
  match goal with
  | |- context [generateAll_loop ?locals 0%nat ?s1] =>
      destruct (generateAll_drive_runs (length (h2ContentsRef s))
                  locals 0%nat s1) as (s' & calls & Hdrive & Hruns);
        [cbn [currentH2Contents]; lia|];
        exists locals, s1, s', calls
  end.
  repeat split; [exact Hdrive|exact Hruns].
Qed.

(** A run always comes to its end. *)
Lemma generateAllH2Contents_run_total isGeneratingAll0 data s :
  exists s' calls,
    generateAllH2Contents_run api isGeneratingAll0 data s
    = Some (s', calls).
Proof.
  destruct (generateAllH2Contents_run_cases isGeneratingAll0 data s)
    as [(s' & H & _)|(locals & s1 & s' & calls & H & _)]; eauto.
Qed.

End BulkFacts.

Section WorldFacts.

Import ArticleGenerator.

Variable typeErrorMessage : list N -> list N.

Lemma generateAll_loop_flag locals i s s' t :
  generateAll_loop locals i s = (s', Some t) ->
  generationInProgressRef s' = generationInProgressRef s.
Proof.
  unfold generateAll_loop.
  destruct (first_pending _ i) as [[j h2]|]; [|discriminate].
  intros H. injection H as <- _. reflexivity.
Qed.

Lemma generateH2Content_flag h2Index data s s' t :
  generateH2Content typeErrorMessage h2Index data s = (s', Some t) ->
  generationInProgressRef s' = true.
Proof.
  intros H. apply generateH2Content_awaits in H as (_ & -> & _).
  reflexivity.
Qed.

Lemma generateAllH2Contents_flag isGeneratingAll0 data s s' t :
  generateAllH2Contents isGeneratingAll0 data s = (s', Some t) ->
  generationInProgressRef s' = true.
Proof.
  unfold generateAllH2Contents.
  destruct (isGeneratingAllRef s || isGeneratingAll0
            || generationInProgressRef s); [discriminate|].
  cbn [headingsResponseRef h2ContentsRef setIsGeneratingAll
         set_generationInProgressRef set_isGeneratingAllRef].
  destruct (headingsResponseRef s); [|discriminate].
  cbn [currentH2Contents].
  destruct (forallb isGenerated (h2ContentsRef s)); [discriminate|].
  intros H. apply generateAll_loop_flag in H. rewrite H. reflexivity.
Qed.

Lemma generateAll_settled_flag locals i outcome s s' t :
  generateAll_settled locals i outcome s = (s', Some t) ->
  generationInProgressRef s' = generationInProgressRef s.
Proof.
  destruct outcome; simpl; [|discriminate].
  intros H. injection H as <- _. reflexivity.
Qed.

(** One step keeps the discipline: no suspended invocation, or one
    only, and then the in-progress ref is set. *)
Lemma step_single_flight e w :
  (pending w = []
   \/ exists t, pending w = [t]
                /\ generationInProgressRef (state w) = true) ->
  pending (step typeErrorMessage e w) = []
  \/ exists t, pending (step typeErrorMessage e w) = [t]
               /\ generationInProgressRef
                    (state (step typeErrorMessage e w)) = true.
Proof.
  destruct w as [s p r]. cbn [pending state].
  intros [-> | (t & -> & Hflag)]; destruct e; cbn [step pending state].
  - destruct (generateH2Content typeErrorMessage h2Index data s)
      as [s' [t'|]] eqn:E; cbn; [right|left; reflexivity].
    exists t'. split; [reflexivity|].
    eapply generateH2Content_flag; eassumption.
  - destruct (generateAllH2Contents isGeneratingAll0 data s)
      as [s' [t'|]] eqn:E; cbn; [right|left; reflexivity].
    exists t'. split; [reflexivity|].
    eapply generateAllH2Contents_flag; eassumption.
  - left. reflexivity.
  - left. reflexivity.
  - left. reflexivity.
  - left. reflexivity.
  - left. reflexivity.
  - rewrite generateH2Content_rejected by exact Hflag.
    right. exists t. split; [reflexivity|exact Hflag].
  - rewrite generateAllH2Contents_rejected by exact Hflag.
    right. exists t. split; [reflexivity|exact Hflag].
  - destruct k as [|k]; cbn; [|right; eauto].
    destruct t as [h2Index request|locals i request|locals i]; cbn;
      [left; reflexivity| |right; eauto].
    destruct (generateAll_settled locals i outcome s) as [s' [t'|]] eqn:E;
      cbn; [right|left; reflexivity].
    exists t'. split; [reflexivity|].
    apply generateAll_settled_flag in E. congruence.
  - destruct k as [|k]; cbn; [|right; eauto].
    destruct t as [h2Index request|locals i request|locals i]; cbn;
      [right; eauto|right; eauto|].
    unfold generateAll_resumed.
    destruct (generateAll_loop locals (S i) s) as [s' [t'|]] eqn:E;
      cbn; [right|left; reflexivity].
    exists t'. split; [reflexivity|].
    apply generateAll_loop_flag in E. congruence.
  - right. exists t. split; [reflexivity|exact Hflag].
  - right. exists t. split; [reflexivity|exact Hflag].
  - right. exists t. split; [reflexivity|exact Hflag].
Qed.

Lemma reachable_single_flight w :
  reachable typeErrorMessage w ->
  pending w = []
  \/ exists t, pending w = [t]
               /\ generationInProgressRef (state w) = true.
Proof.
  induction 1 as [|e w Hw IH]; [left; reflexivity|].
  apply step_single_flight. exact IH.
Qed.

(** With the in-progress ref set, a call of either function changes
    nothing: no state, no suspended invocation, no request. *)
Lemma step_call_rejected w :
  generationInProgressRef (state w) = true ->
  (forall h2Index data,
      step typeErrorMessage (Call_generateH2Content h2Index data) w = w)
  /\ (forall isGeneratingAll0 data,
        step typeErrorMessage
          (Call_generateAllH2Contents isGeneratingAll0 data) w = w).
Proof.
  intros Hflag. destruct w as [s p r]. cbn [state] in Hflag.
  split; intros; cbn [step state].
  - rewrite generateH2Content_rejected by exact Hflag.
    unfold start_task. cbn. rewrite !app_nil_r. reflexivity.
  - rewrite generateAllH2Contents_rejected by exact Hflag.
    unfold start_task. cbn. rewrite !app_nil_r. reflexivity.
Qed.

End WorldFacts.

(** * The statements of the specification *)

Section Statements.

Import ArticleGenerator Examples.

(** C1 (as amended).  The assembled article is the H1 line rendered
    from [headings.h1] followed, each after a blank line and in index
    order, by one block ["## {heading}\n\n{content}"] for every
    section that is generated and whose content is not the empty
    string, and by nothing for any other section; without headings it
    is the empty string. *)
Theorem completeArticle_is_h1_and_generated_blocks (s : State) :
  completeArticle s
  = assembleArticle_spec
      (fun h2 => isGenerated h2 && truthy (content h2)) s.
Proof.
  unfold completeArticle, assembleArticle_spec.
  destruct (headingsResponse s) as [response|]; [|reflexivity].
  rewrite join_cons, blocks_spec_filter, <- app_assoc. reflexivity.
Qed.

(** C1 as stated fails: a section that is generated with the empty
    string as content (the service answered with an empty text) gets
    no block.  The state is one the page reaches. *)
Lemma completeArticle_skips_empty_generated_section :
  reachable sample_typeErrorMessage world_empty_answer
  /\ (isGenerated <$> h2Contents (state world_empty_answer))
     = [true; false]
  /\ completeArticle (state world_empty_answer) = lit "# Coffee"
  /\ assembleArticle_spec isGenerated (state world_empty_answer)
     = lit "# Coffee" ++ BLANK_LINE ++ lit "## Beans" ++ BLANK_LINE
  /\ completeArticle (state world_empty_answer)
     <> assembleArticle_spec isGenerated (state world_empty_answer).
Proof.
  split; [repeat constructor|].
  split; [reflexivity|]. split; [reflexivity|]. split; [reflexivity|].
  vm_compute. discriminate.
Qed.

End Statements.

Section BulkStatements.

Import ArticleGenerator Examples.

(** C2.  A run of generateAllH2Contents requests only sections that
    are not generated in the snapshot it takes of the sections ref
    (which holds the sections state once the effects of the last render
    have run), and requests them in increasing index order without
    passing one over: the indices requested are a prefix of the list of
    pending indices, and the whole list when requests were made and
    none was rejected.  After a run that left every section generated,
    once the effects of the render have run, one more invocation sends
    no request and changes no section. *)
Theorem generateAllH2Contents_skips_generated_in_order
    (api : nat -> H2ContentRequest -> Settled) (isGeneratingAll0 : bool)
    (data : FormData) (s s1 : State) (calls : list Call) :
  generateAllH2Contents_run api isGeneratingAll0 data s
  = Some (s1, calls) ->
  (call_index <$> calls) `prefix_of` pending_indices (h2ContentsRef s) 0
  /\ StronglySorted lt (call_index <$> calls)
  /\ Forall (fun c => exists h2,
                 h2ContentsRef s !! call_index c = Some h2
                 /\ isGenerated h2 = false) calls
  /\ (h2ContentsRef s = h2Contents s ->
      forall c h2, c ∈ calls -> h2Contents s !! call_index c = Some h2 ->
                   isGenerated h2 = false)
  /\ (calls <> [] -> Forall (fun c => is_rejected c = false) calls ->
      call_index <$> calls = pending_indices (h2ContentsRef s) 0)
  /\ (forallb isGenerated (h2Contents s1) = true ->
      forall api' isGeneratingAll1 data',
      exists s2,
        generateAllH2Contents_run api' isGeneratingAll1 data' (syncRefs s1)
        = Some (s2, [])
        /\ h2Contents s2 = h2Contents s1).
Proof.
  intros Hrun.
  assert ((call_index <$> calls)
            `prefix_of` pending_indices (h2ContentsRef s) 0) as Hprefix.
  { destruct (generateAllH2Contents_run_cases api isGeneratingAll0 data s)
      as [(s' & H & _)|(locals & s0 & s' & calls' & H & Hcur & _ & Hruns)];
      rewrite H in Hrun; injection Hrun as <- <-; [apply prefix_nil|].
    apply runs_indices_prefix in Hruns.
    rewrite drop_0, Hcur in Hruns. exact Hruns. }
  split; [exact Hprefix|].
  split.
  { eapply prefix_StronglySorted;
      [exact Hprefix|apply pending_indices_sorted]. }
  assert (Forall (fun c => exists h2,
                    h2ContentsRef s !! call_index c = Some h2
                    /\ isGenerated h2 = false) calls) as Hpending.
  { apply Forall_forall. intros c Hc.
    assert (call_index c ∈ pending_indices (h2ContentsRef s) 0) as Hin.
    { destruct Hprefix as [rest ->]. apply elem_of_app. left.
      apply list_elem_of_fmap_2. exact Hc. }
    destruct (pending_indices_elem _ _ _ Hin) as (k & h2 & Hk & Hl & Hg).
    simpl in Hk. subst k. eauto. }
  split; [exact Hpending|].
  split.
  { intros Hsync c h2 Hc Hh2. rewrite Forall_forall in Hpending.
    destruct (Hpending c Hc) as (h2' & Hl & Hg).
    rewrite Hsync in Hl. congruence. }
  split.
  { intros Hne Hok.
    destruct (generateAllH2Contents_run_cases api isGeneratingAll0 data s)
      as [(s' & H & _)|(locals & s0 & s' & calls' & H & Hcur & _ & Hruns)];
      rewrite H in Hrun; injection Hrun as <- <-; [congruence|].
    destruct (runs_all_fulfilled _ _ _ _ _ _ Hruns Hok) as [Heq _].
    rewrite drop_0, Hcur in Heq. exact Heq. }
  intros Hall api' isGeneratingAll1 data'.
  unfold generateAllH2Contents_run, generateAllH2Contents.
  destruct (isGeneratingAllRef (syncRefs s1) || isGeneratingAll1
            || generationInProgressRef (syncRefs s1)).
  { rewrite generateAll_drive_ended. eauto. }
  cbn [headingsResponseRef h2ContentsRef setIsGeneratingAll
         set_generationInProgressRef set_isGeneratingAllRef syncRefs].
  destruct (headingsResponse s1).
  - cbn [currentH2Contents]. rewrite Hall.
    rewrite generateAll_drive_ended. eauto.
  - rewrite generateAll_drive_ended. eauto.
Qed.

Lemma generateAllH2Contents_skips_generated_in_order_witness :
  exists s1 calls,
    generateAllH2Contents_run api_ok false sample_form
      (state world_with_headings) = Some (s1, calls)
    /\ call_index <$> calls = [0; 1]%nat
    /\ forallb isGenerated (h2Contents s1) = true
    /\ exists s2,
         generateAllH2Contents_run api_fails_second false sample_form
           (syncRefs s1) = Some (s2, [])
         /\ h2Contents s2 = h2Contents s1.
Proof.
  eexists _, _. split; [reflexivity|].
  split; [reflexivity|]. split; [reflexivity|].
  eapply (generateAllH2Contents_skips_generated_in_order api_ok false
            sample_form (state world_with_headings));
    reflexivity.
Defined.

(** C3.  When, in a run of generateAllH2Contents, the request for
    section [i] is rejected, it is the last request of the run and all
    requests before it were for sections of smaller index and were
    fulfilled; the page error is the bulk-failure message, the flags
    are reset, section [i] carries the error message of the rejection
    and is no longer generating, every section fulfilled earlier in
    the run is generated with the content received, and every section
    for which no request was made (among them those generated before
    the run) is as it was. *)
Theorem generateAllH2Contents_stops_at_failure
    (api : nat -> H2ContentRequest -> Settled) (isGeneratingAll0 : bool)
    (data : FormData) (s s' : State) (calls : list Call) (c : Call)
    (err : thrown) :
  generateAllH2Contents_run api isGeneratingAll0 data s
  = Some (s', calls) ->
  c ∈ calls ->
  call_outcome c = Rejected err ->
  (exists calls0,
      calls = calls0 ++ [c]
      /\ Forall (fun c0 => (call_index c0 < call_index c)%nat
                           /\ is_rejected c0 = false) calls0)
  /\ pageError s' = Some BULK_FAILURE
  /\ (generationInProgressRef s' = false
      /\ isGeneratingAllRef s' = false /\ isGeneratingAll s' = false)
  /\ (forall h2, h2Contents s !! call_index c = Some h2 ->
        h2Contents s' !! call_index c
        = Some {| heading := heading h2; content := content h2;
                  wordCount := wordCount h2;
                  isGenerated := isGenerated h2;
                  isGenerating := false;
                  error := Some (errorMessage_of err) |})
  /\ (forall c0 response h2,
        c0 ∈ calls -> call_outcome c0 = Fulfilled response ->
        h2Contents s !! call_index c0 = Some h2 ->
        h2Contents s' !! call_index c0
        = Some {| heading := heading h2;
                  content := generated_content response;
                  wordCount := word_count response;
                  isGenerated := true; isGenerating := false;
                  error := None |})
  /\ (forall j, j ∉ call_index <$> calls ->
        h2Contents s' !! j = h2Contents s !! j).
Proof.
  intros Hrun Hin Hout.
  destruct (generateAllH2Contents_run_cases api isGeneratingAll0 data s)
    as [(s0 & H & _)|(locals & s0 & s1 & calls' & H & Hcur & Hsec & Hruns)];
    rewrite H in Hrun; injection Hrun as <- <-; [inversion Hin|].
  assert (is_rejected c = true) as Hrej
    by (unfold is_rejected; rewrite Hout; reflexivity).
  destruct (runs_rejected_last _ _ _ _ _ _ _ Hruns Hin Hrej)
    as (calls0 & Hcalls & Hok & Herr).
  pose proof (runs_indices_prefix _ _ _ _ _ _ Hruns) as Hprefix.
  pose proof (prefix_StronglySorted _ _ Hprefix
                (pending_indices_sorted _ _)) as Hsorted.
  pose proof (StronglySorted_lt_NoDup _ Hsorted) as Hnd.
  pose proof (runs_sections _ _ _ _ _ _ Hruns) as Hfold.
  rewrite Hsec in Hfold.
  split.
  { exists calls0. split; [exact Hcalls|].
    apply Forall_forall. intros c0 Hc0. split.
    - rewrite Hcalls, fmap_app in Hsorted.
      eapply (StronglySorted_app_1_elem_of _ _ _ _ _ Hsorted).
      + apply list_elem_of_fmap_2. exact Hc0.
      + apply list_elem_of_fmap_2, list_elem_of_singleton. reflexivity.
    - rewrite Forall_forall in Hok. apply Hok. exact Hc0. }
  split; [exact Herr|].
  split.
  { destruct (runs_flags _ _ _ _ _ _ Hruns) as (F1 & F2 & F3). auto. }
  split.
  { intros h2 Hh2. rewrite Hfold.
    rewrite foldl_call_effect_touched by assumption.
    rewrite call_effect_lookup_eq, Hh2, Hout. reflexivity. }
  split.
  { intros c0 response h2 Hc0 Hout0 Hh2. rewrite Hfold.
    rewrite foldl_call_effect_touched by assumption.
    rewrite call_effect_lookup_eq, Hh2, Hout0. reflexivity. }
  intros j Hj. rewrite Hfold. apply foldl_call_effect_untouched. exact Hj.
Qed.

Lemma generateAllH2Contents_stops_at_failure_witness :
  exists s' calls,
    generateAllH2Contents_run api_fails_second false sample_form
      (state world_with_headings) = Some (s', calls)
    /\ call_index <$> calls = [0; 1]%nat
    /\ pageError s' = Some BULK_FAILURE
    /\ (forall j, j ∉ call_index <$> calls ->
          h2Contents s' !! j = h2Contents (state world_with_headings) !! j).
Proof.
  eexists _, _. split; [reflexivity|]. split; [reflexivity|].
  pose proof
    (generateAllH2Contents_stops_at_failure api_fails_second false
       sample_form (state world_with_headings) _ _
       {| call_index := 1;
          call_request :=
            generateAll_request
              {| formData := sample_form;
                 currentHeadings := sample_headings;
                 currentH2Contents :=
                   alter
                     (stored
                        {| generated_content := lit "Text about Beans";
                           word_count := 3 |}) 0%nat
                     (h2ContentsRef (state world_with_headings)) |}
              1
              {| heading := lit "Brewing"; content := [];
                 wordCount := 0; isGenerated := false;
                 isGenerating := false; error := None |};
          call_outcome := Rejected (Error_instance (lit "Network Error")) |}
       (Error_instance (lit "Network Error"))
       eq_refl
       (list_elem_of_further _ _ _ (list_elem_of_here _ _))
       eq_refl) as H.
  split; [exact (proj1 (proj2 H))|].
  exact (proj2 (proj2 (proj2 (proj2 (proj2 H))))).
Defined.

End BulkStatements.

Section SingleStatements.

Import ArticleGenerator Examples.

(** C4 (as amended).  When the request that generateH2Content made for
    section [i] is rejected, section [i] afterwards carries the error
    message and is not generating, while its generated flag, its
    content and its word count are as before the call; the page error
    is that message, the in-progress ref is reset, and every other
    section is exactly as before the call. *)
Theorem generateH2Content_failure_marks_only_its_section
    (typeErrorMessage : list N -> list N) (i : nat) (data : FormData)
    (s s1 : State) (request : H2ContentRequest) (err : thrown) :
  generateH2Content typeErrorMessage i data s
  = (s1, Some (SingleAwait i request)) ->
  let s' := generateH2Content_settled i (Rejected err) s1 in
  (forall h2, h2Contents s !! i = Some h2 ->
     h2Contents s' !! i
     = Some {| heading := heading h2; content := content h2;
               wordCount := wordCount h2; isGenerated := isGenerated h2;
               isGenerating := false;
               error := Some (errorMessage_of err) |})
  /\ pageError s' = Some (errorMessage_of err)
  /\ generationInProgressRef s' = false
  /\ length (h2Contents s') = length (h2Contents s)
  /\ (forall j, j <> i -> h2Contents s' !! j = h2Contents s !! j).
Proof.
  intros Hcall s'. subst s'.
  apply generateH2Content_awaits in Hcall as (_ & -> & _).
  cbn [generateH2Content_settled].
  rewrite generateH2Content_catch_sections.
  cbn [h2Contents setH2Contents setError set_generationInProgressRef].
  split.
  { intros h2 Hh2. rewrite !at_index_lookup_eq, Hh2. reflexivity. }
  split; [reflexivity|]. split; [reflexivity|].
  split; [rewrite !at_index_length; reflexivity|].
  intros j Hj. rewrite !at_index_lookup_ne by exact Hj. reflexivity.
Qed.

Lemma generateH2Content_failure_marks_only_its_section_witness :
  exists s1 request,
    generateH2Content sample_typeErrorMessage 1 sample_form
      (state world_with_headings) = (s1, Some (SingleAwait 1 request))
    /\ let s' :=
          generateH2Content_settled 1
            (Rejected (Error_instance (lit "Network Error"))) s1 in
       (error <$> h2Contents s') = [None; Some (lit "Network Error")]
       /\ (forall j, j <> 1%nat ->
             h2Contents s' !! j
             = h2Contents (state world_with_headings) !! j).
Proof.
  eexists _, _. split; [reflexivity|]. split; [reflexivity|].
  exact (proj2 (proj2 (proj2 (proj2
           (generateH2Content_failure_marks_only_its_section
              sample_typeErrorMessage 1 sample_form
              (state world_with_headings) _ _
              (Error_instance (lit "Network Error")) eq_refl))))).
Defined.

(** C4 as stated fails: a section has one status, and where the
    specification says [generated] the code tests [isGenerated].  A
    section that is generated and whose regeneration is rejected
    carries the error message but is not turned into a failed one: its
    [isGenerated] flag is still set and its earlier content kept, its
    block is still in the assembled article, and a bulk run started
    next passes it over and requests the second section alone.  The
    state is one the page reaches. *)
Lemma generateH2Content_failed_regeneration_stays_generated :
  reachable sample_typeErrorMessage world_regenerate_failed
  /\ h2Contents (state world_regenerate_failed) !! 0%nat
     = Some {| heading := lit "Beans"; content := lit "Text about Beans";
               wordCount := 3; isGenerated := true; isGenerating := false;
               error := Some (lit "Network Error") |}
  /\ pageError (state world_regenerate_failed) = Some (lit "Network Error")
  /\ completeArticle (state world_regenerate_failed)
     = lit "# Coffee" ++ BLANK_LINE ++ lit "## Beans" ++ BLANK_LINE
       ++ lit "Text about Beans"
  /\ pending_indices (h2Contents (state world_regenerate_failed)) 0
     = [1%nat]
  /\ (fun run : State * list Call => call_index <$> run.2)
       <$> generateAllH2Contents_run api_ok false sample_form
             (state world_regenerate_failed)
     = Some [1%nat].
Proof.
  split; [repeat constructor|].
  split; [reflexivity|]. split; [reflexivity|]. split; [reflexivity|].
  split; reflexivity.
Qed.

(** C5.  In every state the page can reach there is at most one
    suspended invocation of generateH2Content or generateAllH2Contents
    (hence at most one request for section content on its way), and
    while there is one, calling either function leaves the state, the
    suspended invocation and the list of requests sent exactly as they
    are. *)
Theorem at_most_one_generation_in_flight
    (typeErrorMessage : list N -> list N) (w : World) :
  reachable typeErrorMessage w ->
  (length (pending w) <= 1)%nat
  /\ (pending w <> [] ->
      (forall h2Index data,
          step typeErrorMessage (Call_generateH2Content h2Index data) w
          = w)
      /\ (forall isGeneratingAll0 data,
            step typeErrorMessage
              (Call_generateAllH2Contents isGeneratingAll0 data) w = w)).
Proof.
  intros Hw.
  destruct (reachable_single_flight typeErrorMessage w Hw)
    as [Hnone | (t & Hone & Hflag)].
  - rewrite Hnone. split; [simpl; lia|congruence].
  - rewrite Hone. split; [simpl; lia|].
    intros _. apply step_call_rejected. exact Hflag.
Qed.

Lemma at_most_one_generation_in_flight_witness :
  pending world_generating <> []
  /\ step sample_typeErrorMessage (Call_generateH2Content 1 sample_form)
       world_generating = world_generating
  /\ step sample_typeErrorMessage
       (Call_generateAllH2Contents false sample_form) world_generating
     = world_generating.
Proof.
  assert (pending world_generating <> []) as Hne by discriminate.
  pose proof
    (at_most_one_generation_in_flight sample_typeErrorMessage
       world_generating
       (reachable_step _ _ _
          (reachable_step _ _ _
             (reachable_step _ _ _ (reachable_initial _)))))
    as [_ H].
  destruct (H Hne) as [H1 H2].
  split; [exact Hne|]. split; [apply H1|apply H2].
Defined.

End SingleStatements.

Section SlugStatements.

Import ClientStorage.

(** C6 (as amended).  createSlug returns the result of: lowercasing;
    stripping every character that is not a-z, 0-9, underscore,
    whitespace, or hyphen; collapsing each run of whitespace,
    underscores, and hyphens into a single hyphen; and trimming
    leading/trailing hyphens.  In particular "Hello, World!" gives
    "hello-world", "  ---Already-Slug---  " gives "already-slug", and
    the empty string and every title whose lowercased form has no
    letter a-z and no digit give the empty string. *)
Theorem createSlug_algorithm (toLowerCase : list N -> list N) :
  (forall s, Forall (fun c => is_ascii c = true) s ->
             toLowerCase s = List.map lower_ascii s) ->
  (forall s, Forall (fun c => is_upper c = false) (toLowerCase s)) ->
  (forall title,
      createSlug toLowerCase title = slugify_amended toLowerCase title)
  /\ createSlug toLowerCase (lit "Hello, World!") = lit "hello-world"
  /\ createSlug toLowerCase (lit "  ---Already-Slug---  ")
     = lit "already-slug"
  /\ createSlug toLowerCase [] = []
  /\ (forall title,
        Forall (fun c => (is_lower c || is_digit c) = false)
          (toLowerCase title) ->
        createSlug toLowerCase title = []).
Proof.
  intros Hascii Hcap.
  split; [intros title; apply createSlug_amended; exact Hcap|].
  split.
  { rewrite (createSlug_ascii _ Hascii); [reflexivity|].
    apply Forall_forall. intros c Hc. vm_compute in Hc.
    repeat (apply elem_of_cons in Hc as [->|Hc]; [reflexivity|]).
    inversion Hc. }
  split.
  { rewrite (createSlug_ascii _ Hascii); [reflexivity|].
    apply Forall_forall. intros c Hc. vm_compute in Hc.
    repeat (apply elem_of_cons in Hc as [->|Hc]; [reflexivity|]).
    inversion Hc. }
  split.
  { rewrite (createSlug_ascii _ Hascii); [reflexivity|constructor]. }
  intros title. apply createSlug_symbols_only. exact Hcap.
Qed.

Lemma createSlug_algorithm_witness :
  createSlug toLowerCase_ascii (lit "My_Article: 2nd Draft!")
  = slugify_amended toLowerCase_ascii (lit "My_Article: 2nd Draft!")
  /\ createSlug toLowerCase_ascii (lit "My_Article: 2nd Draft!")
     = lit "my-article-2nd-draft"
  /\ createSlug toLowerCase_ascii (lit "Hello, World!") = lit "hello-world".
Proof.
  pose proof (createSlug_algorithm toLowerCase_ascii
                toLowerCase_ascii_on_ascii toLowerCase_ascii_no_capital)
    as (H1 & H2 & _).
  split; [apply H1|]. split; [reflexivity|exact H2].
Defined.

(** C6 as stated fails on an underscore between letters: the strip
    step of the code keeps it (the class [\w] holds it) and the
    collapse step turns it into a hyphen, where the algorithm as
    stated deletes it in the strip step. *)
Lemma createSlug_keeps_underscore_as_hyphen :
  createSlug toLowerCase_ascii (lit "a_b") = lit "a-b"
  /\ slugify_spec toLowerCase_ascii (lit "a_b") = lit "ab"
  /\ createSlug toLowerCase_ascii (lit "a_b")
     <> slugify_spec toLowerCase_ascii (lit "a_b").
Proof.
  split; [reflexivity|]. split; [reflexivity|].
  vm_compute. discriminate.
Qed.

Lemma createSlug_idempotent_witness :
  createSlug toLowerCase_ascii
    (createSlug toLowerCase_ascii (lit " --My_Article: 2nd Draft!-- "))
  = createSlug toLowerCase_ascii (lit " --My_Article: 2nd Draft!-- ").
Proof.
  exact (createSlug_idempotent toLowerCase_ascii
           toLowerCase_ascii_on_ascii toLowerCase_ascii_no_capital
           (lit " --My_Article: 2nd Draft!-- ")).
Defined.

End SlugStatements.

Section CollectionStatements.

Import ClientStorage Examples.

(** C8.  When the stored collection holds no record with the given
    slug, updateClientArticle returns [false] without throwing and
    leaves the storage exactly as it was. *)
Theorem updateClientArticle_absent_slug
    (JSON_parse : list N -> Completion (list ClientArticleMetadata))
    (JSON_stringify : list ClientArticleMetadata -> list N)
    (slug0 : list N) (updates : ArticleUpdates) (now : list N)
    (localStorage : Storage) (text : list N)
    (articles : list ClientArticleMetadata) :
  localStorage !! STORAGE_KEY = Some text ->
  JSON_parse text = Normal articles ->
  Forall (fun article => slug article <> slug0) articles ->
  updateClientArticle JSON_parse JSON_stringify slug0 updates now
    localStorage
  = (Normal false, localStorage).
Proof.
  intros Hget Hparse Habsent.
  unfold updateClientArticle, updateClientArticle_try. rewrite Hget.
  destruct (negb (truthy text)); [reflexivity|].
  rewrite Hparse. unfold findIndex.
  rewrite findIndex_from_absent
    by (apply slug_absent_no_match; exact Habsent).
  reflexivity.
Qed.

Lemma updateClientArticle_absent_slug_witness :
  updateClientArticle JSON_parse_empty JSON_stringify_empty
    (lit "missing") sample_updates (lit "2024-01-01T00:00:00.000Z")
    store_empty_array
  = (Normal false, store_empty_array).
Proof.
  apply (updateClientArticle_absent_slug JSON_parse_empty
           JSON_stringify_empty (lit "missing") sample_updates
           (lit "2024-01-01T00:00:00.000Z") store_empty_array
           (lit "[]") []); [reflexivity|reflexivity|constructor].
Defined.

(** C9, what the code does.  When the stored collection holds no
    record with the given slug, deleteClientArticle writes the
    collection back as it was read and returns [true]. *)
Theorem deleteClientArticle_absent_slug_returns_true
    (JSON_parse : list N -> Completion (list ClientArticleMetadata))
    (JSON_stringify : list ClientArticleMetadata -> list N)
    (slug0 : list N) (localStorage : Storage) (text : list N)
    (articles : list ClientArticleMetadata) :
  localStorage !! STORAGE_KEY = Some text ->
  text <> [] ->
  JSON_parse text = Normal articles ->
  Forall (fun article => slug article <> slug0) articles ->
  deleteClientArticle JSON_parse JSON_stringify slug0 localStorage
  = (Normal true, <[STORAGE_KEY := JSON_stringify articles]> localStorage).
Proof.
  intros Hget Htext Hparse Habsent.
  rewrite (deleteClientArticle_present _ _ _ _ _ _ Hget Htext Hparse).
  rewrite filter_all_kept; [reflexivity|].
  eapply List.Forall_impl; [|apply slug_absent_no_match, Habsent].
  intros article H. simpl in H. rewrite H. reflexivity.
Qed.

Lemma deleteClientArticle_absent_slug_returns_true_witness :
  deleteClientArticle JSON_parse_empty JSON_stringify_empty
    (lit "missing") store_empty_array
  = (Normal true, <[STORAGE_KEY := lit "[]"]> store_empty_array).
Proof.
  apply (deleteClientArticle_absent_slug_returns_true JSON_parse_empty
           JSON_stringify_empty (lit "missing") store_empty_array
           (lit "[]") []);
    [reflexivity|discriminate|reflexivity|constructor].
Defined.

(** C10.  With no item under the storage key, or with an item that is
    not valid JSON, getClientArticles returns the empty list and
    getClientArticleBySlug returns null; and whatever the storage
    holds, neither of them throws. *)
Theorem client_reads_fall_back
    (JSON_parse : list N -> Completion (list ClientArticleMetadata))
    (sort_newest_first :
       list ClientArticleListItem -> list ClientArticleListItem)
    (slug0 : list N) (localStorage : Storage) :
  localStorage !! STORAGE_KEY = None
  \/ (exists text e,
        localStorage !! STORAGE_KEY = Some text
        /\ JSON_parse text = Throw e) ->
  getClientArticles JSON_parse sort_newest_first localStorage = Normal []
  /\ getClientArticleBySlug JSON_parse slug0 localStorage = Normal None
  /\ (forall anyStorage : Storage,
        exists items,
          getClientArticles JSON_parse sort_newest_first anyStorage
          = Normal items)
  /\ (forall (anyStorage : Storage) (anySlug : list N),
        exists found,
          getClientArticleBySlug JSON_parse anySlug anyStorage
          = Normal found).
Proof.
  intros Hstate.
  assert (getClientArticles JSON_parse sort_newest_first localStorage
          = Normal []
          /\ getClientArticleBySlug JSON_parse slug0 localStorage
             = Normal None) as [H1 H2].
  { unfold getClientArticles, getClientArticles_try,
      getClientArticleBySlug, getClientArticleBySlug_try.
    destruct Hstate as [-> | (text & e & -> & Hparse)];
      [split; reflexivity|].
    destruct (negb (truthy text)); [split; reflexivity|].
    rewrite Hparse. split; reflexivity. }
  split; [exact H1|]. split; [exact H2|].
  split; [intros; apply getClientArticles_returns
         |intros; apply getClientArticleBySlug_returns].
Qed.

Lemma client_reads_fall_back_witness :
  getClientArticles JSON_parse_empty (fun items => items) store_not_json
  = Normal []
  /\ getClientArticleBySlug JSON_parse_empty (lit "coffee") store_not_json
     = Normal None.
Proof.
  pose proof
    (client_reads_fall_back JSON_parse_empty (fun items => items)
       (lit "coffee") store_not_json
       (or_intror
          (ex_intro _ (lit "{oops")
             (ex_intro _ (Error_instance (lit "SyntaxError"))
                (conj eq_refl eq_refl))))) as (H1 & H2 & _).
  split; [exact H1|exact H2].
Defined.

End CollectionStatements.

(** * Further properties of the code *)

(** ** The local article collection as a store *)

Section StoreFacts.

Import ClientStorage.

(** [findIndex] and [find] agree: the index found is the position of
    the element found. *)
Lemma findIndex_from_find {A} (p : A -> bool) (l : list A) (i : Z) :
  match List.find p l with
  | None => findIndex_from p l i = (-1)%Z
  | Some x =>
      exists n : nat,
        findIndex_from p l i = (i + Z.of_nat n)%Z
        /\ l !! n = Some x /\ p x = true
        /\ forall m y, (m < n)%nat -> l !! m = Some y -> p y = false
  end.
Proof.
  revert i. induction l as [|a l IH]; intros i; simpl; [reflexivity|].
  destruct (p a) eqn:Ha.
  - exists 0%nat. split; [lia|]. split; [reflexivity|]. split; [exact Ha|].
    intros m y Hm. lia.
  - specialize (IH (i + 1)%Z). destruct (List.find p l) as [x|]; [|exact IH].
    destruct IH as (n & Hn & Hl & Hx & Hbefore).
    exists (S n). split; [lia|]. split; [exact Hl|]. split; [exact Hx|].
    intros [|m] y Hm Hy.
    + injection Hy as <-. exact Ha.
    + apply (Hbefore m y); [lia|exact Hy].
Qed.

Lemma findIndex_find {A} (p : A -> bool) (l : list A) :
  match List.find p l with
  | None => findIndex p l = (-1)%Z
  | Some x =>
      exists n : nat,
        findIndex p l = Z.of_nat n
        /\ l !! n = Some x /\ p x = true
        /\ forall m y, (m < n)%nat -> l !! m = Some y -> p y = false
  end.
Proof. apply (findIndex_from_find p l 0%Z). Qed.

Lemma find_first {A} (p : A -> bool) (l : list A) n x :
  l !! n = Some x -> p x = true ->
  (forall m y, (m < n)%nat -> l !! m = Some y -> p y = false) ->
  List.find p l = Some x.
Proof.
  revert n. induction l as [|a l IH]; intros n Hn Hx Hbefore;
    [destruct n; discriminate|].
  destruct n as [|n]; simpl in *.
  - injection Hn as ->. rewrite Hx. reflexivity.
  - rewrite (Hbefore 0%nat a ltac:(lia) eq_refl).
    apply (IH n Hn Hx). intros m y Hm Hy.
    apply (Hbefore (S m) y); [lia|exact Hy].
Qed.

Lemma find_none_all {A} (p : A -> bool) (l : list A) :
  List.find p l = None -> Forall (fun x => p x = false) l.
Proof.
  induction l as [|a l IH]; simpl; [constructor|].
  destruct (p a) eqn:Ha; [discriminate|]. intros H.
  constructor; [exact Ha|apply IH, H].
Qed.

Lemma find_all_none {A} (p : A -> bool) (l : list A) :
  Forall (fun x => p x = false) l -> List.find p l = None.
Proof.
  induction 1 as [|a l Ha Hl IH]; simpl; [reflexivity|].
  rewrite Ha. exact IH.
Qed.

(** Replacing an element that [q] rejects by another that [q] rejects
    does not change what [q] finds. *)
Lemma find_insert_rejected {A} (q : A -> bool) (l : list A) n x y :
  l !! n = Some x -> q x = false -> q y = false ->
  List.find q (<[n := y]> l) = List.find q l.
Proof.
  revert n. induction l as [|a l IH]; intros n Hn Hx Hy;
    [destruct n; discriminate|].
  destruct n as [|n]; simpl in *.
  - injection Hn as ->. rewrite Hx, Hy. reflexivity.
  - destruct (q a); [reflexivity|]. apply IH; assumption.
Qed.

Lemma find_app_rejected {A} (q : A -> bool) (l : list A) y :
  q y = false -> List.find q (l ++ [y]) = List.find q l.
Proof.
  intros Hy. induction l as [|a l IH]; simpl; [rewrite Hy; reflexivity|].
  destruct (q a); [reflexivity|exact IH].
Qed.

Lemma alter_as_insert {A} (f : A -> A) (l : list A) n x :
  l !! n = Some x -> alter f n l = <[n := f x]> l.
Proof.
  revert n. induction l as [|a l IH]; intros n Hn;
    [destruct n; discriminate|].
  destruct n as [|n]; simpl in *.
  - injection Hn as ->. reflexivity.
  - f_equal. apply IH, Hn.
Qed.

Lemma find_filter_other {A} (p q : A -> bool) (l : list A) :
  (forall x, q x = true -> p x = true) ->
  List.find q (List.filter p l) = List.find q l.
Proof.
  intros Hqp. induction l as [|a l IH]; simpl; [reflexivity|].
  destruct (p a) eqn:Hp; simpl.
  - destruct (q a); [reflexivity|exact IH].
  - destruct (q a) eqn:Hq; [|exact IH].
    apply Hqp in Hq. congruence.
Qed.

Lemma find_filter_removed {A} (p : A -> bool) (l : list A) :
  List.find p (List.filter (fun x => negb (p x)) l) = None.
Proof.
  induction l as [|a l IH]; simpl; [reflexivity|].
  destruct (p a) eqn:Hp; simpl; [exact IH|]. rewrite Hp. exact IH.
Qed.

Lemma str_eq_true a b : str_eq a b = true <-> a = b.
Proof. unfold str_eq. apply bool_decide_eq_true. Qed.

Lemma str_eq_false a b : str_eq a b = false <-> a <> b.
Proof. unfold str_eq. apply bool_decide_eq_false. Qed.

Lemma str_eq_refl a : str_eq a a = true.
Proof. apply str_eq_true. reflexivity. Qed.

Variable toLowerCase : list N -> list N.
Variable JSON_parse : list N -> Completion (list ClientArticleMetadata).
Variable JSON_stringify : list ClientArticleMetadata -> list N.

(** What the functions see of a storage: the collection, or that there
    is none to read. *)
Lemma getClientArticleBySlug_found (slug0 : list N)
    (localStorage : Storage) (a : ClientArticleMetadata) :
  getClientArticleBySlug JSON_parse slug0 localStorage = Normal (Some a) ->
  exists text articles,
    localStorage !! STORAGE_KEY = Some text
    /\ truthy text = true
    /\ JSON_parse text = Normal articles
    /\ List.find (fun article => str_eq (slug article) slug0) articles
       = Some a.
Proof.
  unfold getClientArticleBySlug, getClientArticleBySlug_try.
  destruct (localStorage !! STORAGE_KEY) as [text|]; [|discriminate].
  destruct (truthy text) eqn:Ht; simpl; [|discriminate].
  destruct (JSON_parse text) as [articles|e] eqn:Hp; simpl; [|discriminate].
  intros H. injection H as H. eauto 10.
Qed.

(** Reading a storage into which a collection was just written. *)
Lemma getClientArticleBySlug_written (slug0 : list N)
    (localStorage : Storage) (articles : list ClientArticleMetadata) :
  JSON_parse (JSON_stringify articles) = Normal articles ->
  JSON_stringify articles <> [] ->
  getClientArticleBySlug JSON_parse slug0
    (<[STORAGE_KEY := JSON_stringify articles]> localStorage)
  = Normal (List.find (fun article => str_eq (slug article) slug0) articles).
Proof.
  intros Hrt Hne.
  unfold getClientArticleBySlug, getClientArticleBySlug_try.
  rewrite lookup_insert_eq.
  destruct (JSON_stringify articles) as [|c t] eqn:E; [congruence|].
  simpl. rewrite Hrt. reflexivity.
Qed.

End StoreFacts.

Section StoreStatements.

Import ClientStorage.

Variable toLowerCase : list N -> list N.
Variable JSON_parse : list N -> Completion (list ClientArticleMetadata).
Variable JSON_stringify : list ClientArticleMetadata -> list N.

(** What getClientArticleBySlug returns on a storage whose collection
    saveClientArticle could read. *)
Lemma getClientArticleBySlug_stored (slug0 : list N)
    (localStorage : Storage) (articles : list ClientArticleMetadata) :
  stored_articles JSON_parse localStorage = Normal articles ->
  getClientArticleBySlug JSON_parse slug0 localStorage
  = Normal (List.find (fun article => str_eq (slug article) slug0) articles).
Proof.
  unfold stored_articles, getClientArticleBySlug, getClientArticleBySlug_try.
  destruct (localStorage !! STORAGE_KEY) as [text|].
  - destruct (truthy text); simpl.
    + intros ->. reflexivity.
    + intros H. injection H as <-. reflexivity.
  - intros H. injection H as <-. reflexivity.
Qed.

Lemma find_upsert_same (article : ClientArticleMetadata)
    (articles : list ClientArticleMetadata) :
  List.find (fun a => str_eq (slug a) (slug article))
    (upsert article articles) = Some article.
Proof.
  unfold upsert.
  pose proof (findIndex_find
                (fun a => str_eq (slug a) (slug article)) articles) as H.
  destruct (List.find _ articles) as [x|] eqn:Hfind.
  - destruct H as (n & -> & Hn & Hx & Hbefore).
    replace (0 <=? Z.of_nat n)%Z with true by (symmetry; apply Z.leb_le; lia).
    rewrite Nat2Z.id.
    apply (find_first _ _ n).
    + apply list_lookup_insert_eq. eapply lookup_lt_Some, Hn.
    + apply str_eq_refl.
    + intros m y Hm Hy. rewrite list_lookup_insert_ne in Hy by lia.
      apply (Hbefore m y Hm Hy).
  - rewrite H. simpl.
    apply (find_first _ _ (length articles)).
    + rewrite lookup_app_r by lia. rewrite Nat.sub_diag. reflexivity.
    + apply str_eq_refl.
    + intros m y Hm Hy. rewrite lookup_app_l in Hy by lia.
      apply find_none_all in Hfind.
      rewrite Forall_lookup in Hfind. apply (Hfind m y Hy).
Qed.

Lemma find_upsert_other (article : ClientArticleMetadata)
    (articles : list ClientArticleMetadata) (slug1 : list N) :
  slug1 <> slug article ->
  List.find (fun a => str_eq (slug a) slug1) (upsert article articles)
  = List.find (fun a => str_eq (slug a) slug1) articles.
Proof.
  intros Hne. unfold upsert.
  pose proof (findIndex_find
                (fun a => str_eq (slug a) (slug article)) articles) as H.
  assert (str_eq (slug article) slug1 = false) as Hnew
    by (apply str_eq_false; congruence).
  destruct (List.find _ articles) as [x|] eqn:Hfind.
  - destruct H as (n & -> & Hn & Hx & _).
    replace (0 <=? Z.of_nat n)%Z with true by (symmetry; apply Z.leb_le; lia).
    rewrite Nat2Z.id. apply (find_insert_rejected _ _ n x); [exact Hn| |exact Hnew].
    apply str_eq_true in Hx. apply str_eq_false. congruence.
  - rewrite H. simpl. apply find_app_rejected. exact Hnew.
Qed.

(** The slugs of the collection after an upsert: unchanged when the
    slug was there, with the new slug at the end when it was not. *)
Lemma upsert_slugs (article : ClientArticleMetadata)
    (articles : list ClientArticleMetadata) :
  slug <$> upsert article articles
  = if decide (slug article ∈ slug <$> articles)
    then slug <$> articles
    else (slug <$> articles) ++ [slug article].
Proof.
  unfold upsert.
  pose proof (findIndex_find
                (fun a => str_eq (slug a) (slug article)) articles) as H.
  destruct (List.find _ articles) as [x|] eqn:Hfind.
  - destruct H as (n & -> & Hn & Hx & _). apply str_eq_true in Hx.
    replace (0 <=? Z.of_nat n)%Z with true by (symmetry; apply Z.leb_le; lia).
    rewrite Nat2Z.id.
    rewrite decide_True.
    2: { apply list_elem_of_fmap. exists x. split; [congruence|].
         eapply list_elem_of_lookup_2, Hn. }
    rewrite list_fmap_insert. apply list_insert_id.
    rewrite list_lookup_fmap, Hn. simpl. congruence.
  - rewrite H. simpl. rewrite decide_False.
    2: { intros Hin. apply list_elem_of_fmap in Hin as (y & Hy & Hin).
         apply find_none_all in Hfind. rewrite Forall_forall in Hfind.
         specialize (Hfind y Hin). apply str_eq_false in Hfind. congruence. }
    rewrite fmap_app. reflexivity.
Qed.

(** X1.  A record saved with saveClientArticle is read back by
    getClientArticleBySlug under the slug that saveClientArticle
    returned: the slug of the title, and the record with the title and
    the content given and [updatedAt] set to the time of the save (the
    JSON functions reading back what they write). *)
Theorem saveClientArticle_then_get
    (title0 content0 : list N) (metadata : ArticleMetadataInput)
    (now : list N) (localStorage localStorage' : Storage)
    (slug0 : list N) :
  (forall l, JSON_parse (JSON_stringify l) = Normal l) ->
  (forall l, JSON_stringify l <> []) ->
  saveClientArticle toLowerCase JSON_parse JSON_stringify title0 content0
    metadata now localStorage = (Normal slug0, localStorage') ->
  slug0 = createSlug toLowerCase title0
  /\ exists article,
       getClientArticleBySlug JSON_parse slug0 localStorage'
       = Normal (Some article)
       /\ article = new_article toLowerCase title0 content0 metadata now
       /\ title article = Some title0 /\ content article = Some content0
       /\ slug article = slug0 /\ updatedAt article = now.
Proof.
  intros Hrt Hne. unfold saveClientArticle.
  destruct (stored_articles JSON_parse localStorage) as [articles|e];
    [|discriminate].
  intros H. injection H as <- <-. split; [reflexivity|].
  eexists. split; [|repeat split].
  rewrite getClientArticleBySlug_written by auto.
  f_equal.
  exact (find_upsert_same
           (new_article toLowerCase title0 content0 metadata now) articles).
Qed.

(** X2.  saveClientArticle leaves every record under another slug as it
    was: what getClientArticleBySlug returns for a slug other than the
    saved one is the same before and after the save. *)
Theorem saveClientArticle_keeps_other_slugs
    (title0 content0 : list N) (metadata : ArticleMetadataInput)
    (now : list N) (localStorage localStorage' : Storage)
    (slug0 slug1 : list N) :
  (forall l, JSON_parse (JSON_stringify l) = Normal l) ->
  (forall l, JSON_stringify l <> []) ->
  saveClientArticle toLowerCase JSON_parse JSON_stringify title0 content0
    metadata now localStorage = (Normal slug0, localStorage') ->
  slug1 <> slug0 ->
  getClientArticleBySlug JSON_parse slug1 localStorage'
  = getClientArticleBySlug JSON_parse slug1 localStorage.
Proof.
  intros Hrt Hne. unfold saveClientArticle.
  destruct (stored_articles JSON_parse localStorage) as [articles|e] eqn:Hst;
    [|discriminate].
  intros H Hslug. injection H as <- <-.
  rewrite getClientArticleBySlug_written by auto.
  rewrite (getClientArticleBySlug_stored _ _ _ Hst).
  f_equal.
  exact (find_upsert_other
           (new_article toLowerCase title0 content0 metadata now) articles
           slug1 Hslug).
Qed.

(** X3.  saveClientArticle is an upsert on the stored collection: when
    the slug of the title is already stored the sequence of slugs is
    unchanged (the record is replaced in place), otherwise the new slug
    is added at the end; so a collection without duplicate slugs stays
    without duplicates. *)
Theorem saveClientArticle_upserts
    (title0 content0 : list N) (metadata : ArticleMetadataInput)
    (now : list N) (localStorage : Storage)
    (articles : list ClientArticleMetadata) :
  stored_articles JSON_parse localStorage = Normal articles ->
  exists articles',
    saveClientArticle toLowerCase JSON_parse JSON_stringify title0 content0
      metadata now localStorage
    = (Normal (createSlug toLowerCase title0),
       <[STORAGE_KEY := JSON_stringify articles']> localStorage)
    /\ slug <$> articles'
       = (if decide (createSlug toLowerCase title0 ∈ slug <$> articles)
          then slug <$> articles
          else (slug <$> articles) ++ [createSlug toLowerCase title0])
    /\ (NoDup (slug <$> articles) -> NoDup (slug <$> articles')).
Proof.
  intros Hst. unfold saveClientArticle. rewrite Hst.
  eexists. split; [reflexivity|].
  pose proof (upsert_slugs
                (new_article toLowerCase title0 content0 metadata now)
                articles) as Hs.
  cbn [slug new_article] in Hs. split; [exact Hs|].
  intros Hnd. rewrite Hs. destruct (decide _) as [Hin|Hout]; [exact Hnd|].
  apply NoDup_app. split; [exact Hnd|]. split.
  - intros x Hx Hx'. apply list_elem_of_singleton in Hx'. subst x.
    contradiction.
  - apply NoDup_singleton.
Qed.

(** X4.  When the item under the storage key is a text that JSON.parse
    rejects, saveClientArticle throws that error and leaves the storage
    as it was: nothing is overwritten. *)
Theorem saveClientArticle_unreadable_store
    (title0 content0 : list N) (metadata : ArticleMetadataInput)
    (now : list N) (localStorage : Storage) (text : list N) (e : thrown) :
  localStorage !! STORAGE_KEY = Some text ->
  text <> [] ->
  JSON_parse text = Throw e ->
  saveClientArticle toLowerCase JSON_parse JSON_stringify title0 content0
    metadata now localStorage = (Throw e, localStorage).
Proof.
  intros Hget Hne Hparse. unfold saveClientArticle, stored_articles.
  rewrite Hget. destruct text as [|c t]; [congruence|]. simpl.
  rewrite Hparse. reflexivity.
Qed.

(** X5.  updateClientArticle returns [true] exactly when
    getClientArticleBySlug finds a record under the slug; when it finds
    none (no item, an unreadable item, or no such slug) the update
    returns [false] and the storage is untouched.  Neither throws. *)
Theorem updateClientArticle_succeeds_iff_found
    (slug0 : list N) (updates : ArticleUpdates) (now : list N)
    (localStorage : Storage) :
  match getClientArticleBySlug JSON_parse slug0 localStorage with
  | Normal (Some _) =>
      (updateClientArticle JSON_parse JSON_stringify slug0 updates now
         localStorage).1 = Normal true
  | Normal None =>
      updateClientArticle JSON_parse JSON_stringify slug0 updates now
        localStorage = (Normal false, localStorage)
  | Throw _ => False
  end.
Proof.
  unfold getClientArticleBySlug, getClientArticleBySlug_try,
    updateClientArticle, updateClientArticle_try.
  destruct (localStorage !! STORAGE_KEY) as [text|]; [|reflexivity].
  destruct (negb (truthy text)); [reflexivity|].
  destruct (JSON_parse text) as [articles|e]; [|reflexivity].
  simpl.
  pose proof (findIndex_find
                (fun article => str_eq (slug article) slug0) articles) as H.
  destruct (List.find _ articles) as [x|].
  - destruct H as (n & -> & _).
    replace (Z.of_nat n <? 0)%Z with false
      by (symmetry; apply Z.ltb_ge; lia).
    reflexivity.
  - rewrite H. reflexivity.
Qed.

Lemma updateClientArticle_found (slug0 : list N) (updates : ArticleUpdates)
    (now : list N) (localStorage : Storage) (text : list N)
    (articles : list ClientArticleMetadata) (a : ClientArticleMetadata) :
  localStorage !! STORAGE_KEY = Some text ->
  truthy text = true ->
  JSON_parse text = Normal articles ->
  List.find (fun article => str_eq (slug article) slug0) articles = Some a ->
  exists n,
    articles !! n = Some a
    /\ (forall m y, (m < n)%nat -> articles !! m = Some y ->
                    str_eq (slug y) slug0 = false)
    /\ updateClientArticle JSON_parse JSON_stringify slug0 updates now
         localStorage
       = (Normal true,
          <[STORAGE_KEY :=
              JSON_stringify
                (<[n := merge_updates a updates now]> articles)]>
            localStorage).
Proof.
  intros Hget Ht Hparse Hfind.
  pose proof (findIndex_find
                (fun article => str_eq (slug article) slug0) articles) as H.
  rewrite Hfind in H. destruct H as (n & Hidx & Hn & _ & Hbefore).
  exists n. split; [exact Hn|]. split; [exact Hbefore|].
  unfold updateClientArticle, updateClientArticle_try.
  rewrite Hget, Ht. simpl. rewrite Hparse, Hidx.
  replace (Z.of_nat n <? 0)%Z with false by (symmetry; apply Z.ltb_ge; lia).
  rewrite Nat2Z.id, (alter_as_insert _ _ _ _ Hn). reflexivity.
Qed.

(** X6.  After updateClientArticle on a slug that is stored,
    getClientArticleBySlug returns the record it returned before with
    the value of every key of [updates] written into its field, the
    value [undefined] too: a key that [updates] has with [undefined]
    erases the field, and only a key that [updates] does not have
    leaves the field as it was.  [updatedAt] is set to the time of the
    update, the slug and [createdAt] are unchanged, and the records
    under every other slug are read as before. *)
Theorem updateClientArticle_then_get
    (slug0 : list N) (updates : ArticleUpdates) (now : list N)
    (localStorage : Storage) (a : ClientArticleMetadata) :
  (forall l, JSON_parse (JSON_stringify l) = Normal l) ->
  (forall l, JSON_stringify l <> []) ->
  getClientArticleBySlug JSON_parse slug0 localStorage = Normal (Some a) ->
  let localStorage' :=
    (updateClientArticle JSON_parse JSON_stringify slug0 updates now
       localStorage).2 in
  getClientArticleBySlug JSON_parse slug0 localStorage'
  = Normal (Some (merge_updates a updates now))
  /\ title (merge_updates a updates now)
     = match upd_title updates with
       | Some value => value
       | None => title a
       end
  /\ content (merge_updates a updates now)
     = match upd_content updates with
       | Some value => value
       | None => content a
       end
  /\ metaDescription (merge_updates a updates now)
     = match upd_metaDescription updates with
       | Some value => value
       | None => metaDescription a
       end
  /\ slug (merge_updates a updates now) = slug0
  /\ createdAt (merge_updates a updates now) = createdAt a
  /\ updatedAt (merge_updates a updates now) = now
  /\ (forall slug1, slug1 <> slug0 ->
        getClientArticleBySlug JSON_parse slug1 localStorage'
        = getClientArticleBySlug JSON_parse slug1 localStorage).
Proof.
  intros Hrt Hne Hfound localStorage'. subst localStorage'.
  pose proof Hfound as Hfound'.
  apply getClientArticleBySlug_found in Hfound
    as (text & articles & Hget & Ht & Hparse & Hfind).
  destruct (updateClientArticle_found slug0 updates now _ _ _ _
              Hget Ht Hparse Hfind) as (n & Hn & Hbefore & ->).
  assert (slug a = slug0) as Hslug.
  { apply find_some in Hfind as [_ H]. apply str_eq_true in H. exact H. }
  cbn [snd]. rewrite !getClientArticleBySlug_written by auto.
  split.
  { f_equal. apply (find_first _ _ n).
    - apply list_lookup_insert_eq. eapply lookup_lt_Some, Hn.
    - apply str_eq_true. exact Hslug.
    - intros m y Hm Hy. rewrite list_lookup_insert_ne in Hy by lia.
      apply (Hbefore m y Hm Hy). }
  split; [simpl; destruct (upd_title updates); reflexivity|].
  split; [simpl; destruct (upd_content updates); reflexivity|].
  split; [simpl; destruct (upd_metaDescription updates); reflexivity|].
  split; [exact Hslug|]. split; [reflexivity|]. split; [reflexivity|].
  intros slug1 Hne1.
  rewrite getClientArticleBySlug_written by auto.
  assert (stored_articles JSON_parse localStorage = Normal articles) as Hst.
  { unfold stored_articles. rewrite Hget, Ht. exact Hparse. }
  rewrite (getClientArticleBySlug_stored _ _ _ Hst). f_equal.
  apply (find_insert_rejected _ _ n a); [exact Hn| |];
    apply str_eq_false; simpl; congruence.
Qed.

(** X7.  updateClientArticle never adds, removes or reorders a record,
    and never changes a slug or a creation time: the collection it
    writes has the slugs and the [createdAt] values of the collection
    it read, position by position. *)
Theorem updateClientArticle_keeps_slugs
    (slug0 : list N) (updates : ArticleUpdates) (now : list N)
    (localStorage : Storage) (text : list N)
    (articles : list ClientArticleMetadata) :
  localStorage !! STORAGE_KEY = Some text ->
  text <> [] ->
  JSON_parse text = Normal articles ->
  slug0 ∈ slug <$> articles ->
  exists articles',
    updateClientArticle JSON_parse JSON_stringify slug0 updates now
      localStorage
    = (Normal true,
       <[STORAGE_KEY := JSON_stringify articles']> localStorage)
    /\ slug <$> articles' = slug <$> articles
    /\ createdAt <$> articles' = createdAt <$> articles
    /\ length articles' = length articles.
Proof.
  intros Hget Hne Hparse Hin.
  assert (truthy text = true) as Ht by (destruct text; [congruence|reflexivity]).
  destruct (List.find (fun article => str_eq (slug article) slug0) articles)
    as [a|] eqn:Hfind.
  - destruct (updateClientArticle_found slug0 updates now _ _ _ _
                Hget Ht Hparse Hfind) as (n & Hn & _ & ->).
    eexists. split; [reflexivity|].
    split; [|split].
    + rewrite list_fmap_insert. apply list_insert_id.
      rewrite list_lookup_fmap, Hn. reflexivity.
    + rewrite list_fmap_insert. apply list_insert_id.
      rewrite list_lookup_fmap, Hn. reflexivity.
    + apply length_insert.
  - apply find_none_all in Hfind. rewrite Forall_forall in Hfind.
    apply list_elem_of_fmap in Hin as (y & -> & Hy).
    specialize (Hfind y Hy). rewrite str_eq_refl in Hfind. discriminate.
Qed.

(** X8.  After deleteClientArticle, whatever the storage held,
    getClientArticleBySlug finds nothing under the deleted slug, and
    the records under every other slug are read as before. *)
Theorem deleteClientArticle_then_get
    (slug0 : list N) (localStorage : Storage) :
  (forall l, JSON_parse (JSON_stringify l) = Normal l) ->
  (forall l, JSON_stringify l <> []) ->
  let localStorage' :=
    (deleteClientArticle JSON_parse JSON_stringify slug0 localStorage).2 in
  getClientArticleBySlug JSON_parse slug0 localStorage' = Normal None
  /\ (forall slug1, slug1 <> slug0 ->
        getClientArticleBySlug JSON_parse slug1 localStorage'
        = getClientArticleBySlug JSON_parse slug1 localStorage).
Proof.
  intros Hrt Hne localStorage'. subst localStorage'.
  unfold deleteClientArticle, deleteClientArticle_try.
  destruct (localStorage !! STORAGE_KEY) as [text|] eqn:Hget.
  2: { cbn [snd]. unfold getClientArticleBySlug, getClientArticleBySlug_try.
       rewrite Hget. split; reflexivity. }
  destruct (truthy text) eqn:Ht; cbn [negb].
  2: { cbn [snd]. unfold getClientArticleBySlug, getClientArticleBySlug_try.
       rewrite Hget, Ht. split; reflexivity. }
  destruct (JSON_parse text) as [articles|e] eqn:Hparse.
  2: { cbn [snd]. unfold getClientArticleBySlug, getClientArticleBySlug_try.
       rewrite Hget, Ht. cbn [negb]. rewrite Hparse. split; reflexivity. }
  cbn [snd]. rewrite getClientArticleBySlug_written by auto.
  split.
  { f_equal.
    apply (find_filter_removed (fun article => str_eq (slug article) slug0)). }
  intros slug1 Hne1. rewrite getClientArticleBySlug_written by auto.
  assert (stored_articles JSON_parse localStorage = Normal articles) as Hst.
  { unfold stored_articles. rewrite Hget, Ht. exact Hparse. }
  rewrite (getClientArticleBySlug_stored _ _ _ Hst). f_equal.
  apply find_filter_other. intros x Hx.
  apply str_eq_true in Hx. apply negb_true_iff, str_eq_false. congruence.
Qed.

Lemma deleteClientArticle_nothing (slug0 : list N) (localStorage : Storage) :
  localStorage !! STORAGE_KEY = None
  \/ (exists text, localStorage !! STORAGE_KEY = Some text
                   /\ (truthy text = false
                       \/ exists e, JSON_parse text = Throw e)) ->
  deleteClientArticle JSON_parse JSON_stringify slug0 localStorage
  = (Normal false, localStorage).
Proof.
  unfold deleteClientArticle, deleteClientArticle_try.
  intros [-> | (text & -> & [Ht | (e & Hparse)])]; [reflexivity| |].
  - rewrite Ht. reflexivity.
  - destruct (negb (truthy text)); [reflexivity|].
    rewrite Hparse. reflexivity.
Qed.

Lemma filter_filter_same {A} (p : A -> bool) (l : list A) :
  List.filter p (List.filter p l) = List.filter p l.
Proof.
  induction l as [|x l IH]; [reflexivity|]. simpl.
  destruct (p x) eqn:Hx; simpl; [rewrite Hx, IH; reflexivity|exact IH].
Qed.

(** X9.  Deleting the same slug a second time leaves the storage as the
    first deletion left it. *)
Theorem deleteClientArticle_twice
    (slug0 : list N) (localStorage : Storage) :
  (forall l, JSON_parse (JSON_stringify l) = Normal l) ->
  (forall l, JSON_stringify l <> []) ->
  (deleteClientArticle JSON_parse JSON_stringify slug0
     (deleteClientArticle JSON_parse JSON_stringify slug0 localStorage).2).2
  = (deleteClientArticle JSON_parse JSON_stringify slug0 localStorage).2.
Proof.
  intros Hrt Hne.
  destruct (localStorage !! STORAGE_KEY) as [text|] eqn:Hget.
  2: { rewrite !(deleteClientArticle_nothing slug0 localStorage) by auto.
       cbn [snd].
       rewrite (deleteClientArticle_nothing slug0 localStorage) by auto.
       reflexivity. }
  destruct (truthy text) eqn:Ht.
  2: { rewrite !(deleteClientArticle_nothing slug0 localStorage) by eauto.
       cbn [snd].
       rewrite (deleteClientArticle_nothing slug0 localStorage) by eauto.
       reflexivity. }
  destruct (JSON_parse text) as [articles|e] eqn:Hparse.
  2: { rewrite !(deleteClientArticle_nothing slug0 localStorage) by eauto 6.
       cbn [snd].
       rewrite (deleteClientArticle_nothing slug0 localStorage) by eauto 6.
       reflexivity. }
  assert (text <> []) as Htext by (destruct text; [discriminate|congruence]).
  rewrite !(deleteClientArticle_present JSON_parse JSON_stringify slug0
              localStorage text articles Hget Htext Hparse).
  cbn [snd].
  rewrite (deleteClientArticle_present JSON_parse JSON_stringify slug0 _ _ _
             (lookup_insert_eq _ _ _) (Hne _) (Hrt _)).
  cbn [snd]. rewrite insert_insert_eq, filter_filter_same. reflexivity.
Qed.

End StoreStatements.

Section StoreWitnesses.

Import ClientStorage Examples.

Lemma JSON_code_roundtrip (l : list ClientArticleMetadata) :
  JSON_parse_code (JSON_stringify_code l) = Normal l.
Proof.
  unfold JSON_parse_code, JSON_stringify_code. rewrite decode_encode.
  reflexivity.
Qed.

Lemma JSON_code_nonempty (l : list ClientArticleMetadata) :
  JSON_stringify_code l <> [].
Proof. discriminate. Qed.

Lemma stored_articles_empty :
  stored_articles JSON_parse_code ∅ = Normal [].
Proof. reflexivity. Qed.

Lemma sample_save :
  saveClientArticle toLowerCase_ascii JSON_parse_code JSON_stringify_code
    (lit "Coffee Guide") (lit "Body") sample_metadata sample_now ∅
  = (Normal (lit "coffee-guide"), store_with_article).
Proof. reflexivity. Qed.

Lemma sample_store_get :
  getClientArticleBySlug JSON_parse_code (lit "coffee-guide")
    store_with_article
  = Normal (Some (new_article toLowerCase_ascii (lit "Coffee Guide")
                    (lit "Body") sample_metadata sample_now)).
Proof.
  unfold store_with_article, saveClientArticle. cbn [stored_articles snd].
  change (stored_articles JSON_parse_code ∅) with
    (Normal (@nil ClientArticleMetadata)).
  cbn [snd].
  rewrite getClientArticleBySlug_written
    by auto using JSON_code_roundtrip, JSON_code_nonempty.
  reflexivity.
Qed.

Lemma saveClientArticle_then_get_witness :
  exists article,
    getClientArticleBySlug JSON_parse_code (lit "coffee-guide")
      store_with_article = Normal (Some article)
    /\ title article = Some (lit "Coffee Guide")
    /\ content article = Some (lit "Body").
Proof.
  destruct (saveClientArticle_then_get toLowerCase_ascii JSON_parse_code
              JSON_stringify_code (lit "Coffee Guide") (lit "Body")
              sample_metadata sample_now ∅ store_with_article
              (lit "coffee-guide") JSON_code_roundtrip JSON_code_nonempty
              sample_save) as (_ & article & Hget & _ & Ht & Hc & _).
  exists article. auto.
Defined.

Lemma saveClientArticle_keeps_other_slugs_witness :
  getClientArticleBySlug JSON_parse_code (lit "tea-guide")
    store_with_article
  = getClientArticleBySlug JSON_parse_code (lit "tea-guide") ∅.
Proof.
  apply (saveClientArticle_keeps_other_slugs toLowerCase_ascii
           JSON_parse_code JSON_stringify_code (lit "Coffee Guide")
           (lit "Body") sample_metadata sample_now ∅ store_with_article
           (lit "coffee-guide") (lit "tea-guide") JSON_code_roundtrip
           JSON_code_nonempty sample_save).
  discriminate.
Defined.

Lemma saveClientArticle_upserts_witness :
  exists articles',
    saveClientArticle toLowerCase_ascii JSON_parse_code JSON_stringify_code
      (lit "Coffee Guide") (lit "Body") sample_metadata sample_now ∅
    = (Normal (lit "coffee-guide"),
       <[STORAGE_KEY := JSON_stringify_code articles']> ∅)
    /\ slug <$> articles' = [lit "coffee-guide"].
Proof.
  destruct (saveClientArticle_upserts toLowerCase_ascii JSON_parse_code
              JSON_stringify_code (lit "Coffee Guide") (lit "Body")
              sample_metadata sample_now ∅ [] stored_articles_empty)
    as (articles' & Hsave & Hslugs & _).
  exists articles'. split; [exact Hsave|exact Hslugs].
Defined.

Lemma saveClientArticle_unreadable_store_witness :
  saveClientArticle toLowerCase_ascii JSON_parse_empty JSON_stringify_empty
    (lit "Coffee Guide") (lit "Body") sample_metadata sample_now
    store_not_json
  = (Throw (Error_instance (lit "SyntaxError")), store_not_json).
Proof.
  apply (saveClientArticle_unreadable_store toLowerCase_ascii
           JSON_parse_empty JSON_stringify_empty (lit "Coffee Guide")
           (lit "Body") sample_metadata sample_now store_not_json
           (lit "{oops")); [reflexivity|discriminate|reflexivity].
Defined.

Lemma updateClientArticle_then_get_witness :
  exists article,
    getClientArticleBySlug JSON_parse_code (lit "coffee-guide")
      (updateClientArticle JSON_parse_code JSON_stringify_code
         (lit "coffee-guide") sample_editor_updates sample_now
         store_with_article).2
    = Normal (Some article)
    /\ title article = None
    /\ content article = Some (lit "new text")
    /\ metaDescription article = None.
Proof.
  destruct (updateClientArticle_then_get JSON_parse_code
              JSON_stringify_code (lit "coffee-guide") sample_editor_updates
              sample_now store_with_article _ JSON_code_roundtrip
              JSON_code_nonempty sample_store_get)
    as (Hget & Ht & Hc & Hm & _).
  eexists. split; [exact Hget|]. split; [exact Ht|].
  split; [exact Hc|exact Hm].
Defined.

Lemma updateClientArticle_keeps_slugs_witness :
  exists articles',
    updateClientArticle JSON_parse_code JSON_stringify_code
      (lit "coffee-guide") sample_updates sample_now store_with_article
    = (Normal true,
       <[STORAGE_KEY := JSON_stringify_code articles']> store_with_article)
    /\ slug <$> articles' = [lit "coffee-guide"].
Proof.
  destruct (updateClientArticle_keeps_slugs JSON_parse_code
              JSON_stringify_code (lit "coffee-guide") sample_updates
              sample_now store_with_article
              (JSON_stringify_code
                 [new_article toLowerCase_ascii (lit "Coffee Guide")
                    (lit "Body") sample_metadata sample_now])
              [new_article toLowerCase_ascii (lit "Coffee Guide")
                 (lit "Body") sample_metadata sample_now]
              (lookup_insert_eq _ _ _) (JSON_code_nonempty _)
              (JSON_code_roundtrip _)
              (list_elem_of_here _ _))
    as (articles' & Hupd & Hslugs & _).
  exists articles'. split; [exact Hupd|exact Hslugs].
Defined.

Lemma deleteClientArticle_then_get_witness :
  getClientArticleBySlug JSON_parse_code (lit "coffee-guide")
    (deleteClientArticle JSON_parse_code JSON_stringify_code
       (lit "coffee-guide") store_with_article).2
  = Normal None.
Proof.
  exact (proj1 (deleteClientArticle_then_get JSON_parse_code
                  JSON_stringify_code (lit "coffee-guide")
                  store_with_article JSON_code_roundtrip
                  JSON_code_nonempty)).
Defined.

Lemma deleteClientArticle_twice_witness :
  (deleteClientArticle JSON_parse_code JSON_stringify_code
     (lit "coffee-guide")
     (deleteClientArticle JSON_parse_code JSON_stringify_code
        (lit "coffee-guide") store_with_article).2).2
  = (deleteClientArticle JSON_parse_code JSON_stringify_code
       (lit "coffee-guide") store_with_article).2.
Proof.
  exact (deleteClientArticle_twice JSON_parse_code JSON_stringify_code
           (lit "coffee-guide") store_with_article JSON_code_roundtrip
           JSON_code_nonempty).
Defined.

End StoreWitnesses.

(** ** The page over time *)

Ltac state_cbn :=
  cbn [fst snd ArticleGenerator.state ArticleGenerator.pending
       ArticleGenerator.requested ArticleGenerator.pageError
       ArticleGenerator.generationStep ArticleGenerator.headingsResponse
       ArticleGenerator.h2Contents ArticleGenerator.isGeneratingAll
       ArticleGenerator.isGeneratingAllRef
       ArticleGenerator.generationInProgressRef
       ArticleGenerator.h2ContentsRef ArticleGenerator.headingsResponseRef
       ArticleGenerator.setError ArticleGenerator.setGenerationStep
       ArticleGenerator.setHeadingsResponse ArticleGenerator.setH2Contents
       ArticleGenerator.setIsGeneratingAll
       ArticleGenerator.set_isGeneratingAllRef
       ArticleGenerator.set_generationInProgressRef
       ArticleGenerator.syncRefs
       ArticleGenerator.generateH2Content_catch
       ArticleGenerator.generateH2Content_settled
       ArticleGenerator.generateAll_finally ArticleGenerator.generateAll_catch
       ArticleGenerator.generateAll_settled
       ArticleGenerator.generateHeadings_fulfilled
       ArticleGenerator.continue_task ArticleGenerator.start_task
       ArticleGenerator.with_state].

Section WorldInvariants.

Import ArticleGenerator.

Variable typeErrorMessage : list N -> list N.

Lemma Forall_at_index (P : H2ContentData -> Prop) i f
    (sections : list H2ContentData) :
  (forall h2, P h2 -> P (f h2)) ->
  Forall P sections -> Forall P (at_index i f sections).
Proof.
  intros Hf Hall. apply Forall_lookup. intros j h2 Hj.
  rewrite at_index_lookup in Hj.
  destruct (sections !! j) as [h2'|] eqn:E; [|discriminate].
  rewrite Forall_lookup in Hall. specialize (Hall j h2' E).
  simpl in Hj. injection Hj as <-.
  destruct (Nat.eqb j i); [apply Hf, Hall|exact Hall].
Qed.

Lemma fmap_at_index {B} (g : H2ContentData -> B) i f
    (sections : list H2ContentData) :
  (forall h2, g (f h2) = g h2) ->
  g <$> at_index i f sections = g <$> sections.
Proof.
  intros Hf. apply list_eq. intros j.
  rewrite !list_lookup_fmap, at_index_lookup.
  destruct (sections !! j) as [h2|]; [|reflexivity]. simpl.
  destruct (Nat.eqb j i); [rewrite Hf|]; reflexivity.
Qed.

(** Every step of the page changes the sections only by marking one as
    started, stored or failed, or by replacing them all, together with
    the headings, when headings arrive. *)
Lemma step_sections_preserve
    (P : option HeadingsGenerationResponse -> list H2ContentData -> Prop)
    e w :
  (forall hr l i, P hr l -> P hr (at_index i started l)) ->
  (forall hr l i response, P hr l -> P hr (at_index i (stored response) l)) ->
  (forall hr l i msg, P hr l -> P hr (at_index i (failed msg) l)) ->
  (forall response,
      P (Some response)
        (h2Contents (generateHeadings_fulfilled response mounted))) ->
  P (headingsResponse (state w)) (h2Contents (state w)) ->
  P (headingsResponse (state (step typeErrorMessage e w)))
    (h2Contents (state (step typeErrorMessage e w))).
Proof.
  intros Hstart Hstore Hfail Hinit HP.
  destruct w as [s p r]. cbn [state] in HP.
  destruct e; cbn [step state start_task continue_task with_state pending].
  - unfold generateH2Content.
    destruct (generationInProgressRef s); [exact HP|].
    state_cbn.
    destruct (headingsResponseRef s);
      [destruct (h2ContentsRef s !! h2Index)|]; state_cbn;
      auto using Hstart, Hfail.
  - unfold generateAllH2Contents.
    destruct (isGeneratingAllRef s || isGeneratingAll0
              || generationInProgressRef s); [exact HP|].
    state_cbn.
    destruct (headingsResponseRef s); [|exact HP].
    cbn [currentH2Contents].
    destruct (forallb isGenerated (h2ContentsRef s)); [exact HP|].
    unfold generateAll_loop.
    destruct (first_pending _ 0) as [[j h2]|]; state_cbn;
      auto using Hstart.
  - destruct (p !! k) as [[h2Index request|locals i request|locals i]|];
      cbn [state]; try exact HP.
    + destruct outcome; state_cbn; auto using Hstore, Hfail.
    + destruct outcome; state_cbn; auto using Hstore, Hfail.
  - destruct (p !! k) as [[h2Index request|locals i request|locals i]|];
      cbn [state]; try exact HP.
    unfold generateAll_resumed, generateAll_loop.
    destruct (first_pending _ (S i)) as [[j h2]|]; state_cbn;
      auto using Hstart.
  - exact HP.
  - apply Hinit.
  - exact HP.
Qed.

Lemma reachable_sections
    (P : option HeadingsGenerationResponse -> list H2ContentData -> Prop) w :
  (forall hr l i, P hr l -> P hr (at_index i started l)) ->
  (forall hr l i response, P hr l -> P hr (at_index i (stored response) l)) ->
  (forall hr l i msg, P hr l -> P hr (at_index i (failed msg) l)) ->
  (forall response,
      P (Some response)
        (h2Contents (generateHeadings_fulfilled response mounted))) ->
  P None [] ->
  reachable typeErrorMessage w ->
  P (headingsResponse (state w)) (h2Contents (state w)).
Proof.
  intros Hstart Hstore Hfail Hinit Hmount.
  induction 1 as [|e w Hw IH]; [exact Hmount|].
  apply step_sections_preserve; assumption.
Qed.

(** X10.  In every state the page reaches, the sections mirror the H2
    headings that were fetched, index by index: the headings of the
    sections are the [h2_headings] of the headings response (and there
    is no section before headings have arrived).  No generation step
    reorders, inserts, removes or renames a section. *)
Theorem reachable_sections_mirror_headings (w : World) :
  reachable typeErrorMessage w ->
  heading <$> h2Contents (state w)
  = match headingsResponse (state w) with
    | Some response => h2_headings (seo_content response)
    | None => []
    end.
Proof.
  intros Hw.
  apply (reachable_sections
           (fun hr l =>
              heading <$> l
              = match hr with
                | Some response => h2_headings (seo_content response)
                | None => []
                end) w); try exact Hw.
  - intros hr l i H. rewrite fmap_at_index; [exact H|reflexivity].
  - intros hr l i response H. rewrite fmap_at_index; [exact H|reflexivity].
  - intros hr l i msg H. rewrite fmap_at_index; [exact H|reflexivity].
  - intros response. cbn. rewrite <- list_fmap_compose.
    apply list_fmap_id.
  - reflexivity.
Qed.

Lemma reachable_pending_blank (w : World) :
  reachable typeErrorMessage w ->
  Forall (fun h2 => isGenerated h2 = false ->
                    content h2 = [] /\ wordCount h2 = 0%Z)
    (h2Contents (state w)).
Proof.
  intros Hw.
  apply (reachable_sections
           (fun _ l =>
              Forall (fun h2 => isGenerated h2 = false ->
                                content h2 = [] /\ wordCount h2 = 0%Z) l) w);
    try exact Hw.
  - intros _ l i H. apply Forall_at_index; [|exact H]. intros h2 Hh2. exact Hh2.
  - intros _ l i response H. apply Forall_at_index; [|exact H].
    intros h2 _ Hg. discriminate Hg.
  - intros _ l i msg H. apply Forall_at_index; [|exact H].
    intros h2 Hh2. exact Hh2.
  - intros response. cbn. apply Forall_forall. intros h2 Hin.
    apply list_elem_of_fmap in Hin as (h0 & -> & _). auto.
  - constructor.
Qed.

Lemma foldl_wordCount_from (sections : list H2ContentData) (a : Z) :
  foldl (fun sum h2 => (sum + wordCount h2)%Z) a sections
  = (a + foldl (fun sum h2 => (sum + wordCount h2)%Z) 0%Z sections)%Z.
Proof.
  revert a. induction sections as [|x l IH]; intros a; simpl; [lia|].
  rewrite (IH (a + wordCount x)%Z), (IH (0 + wordCount x)%Z). lia.
Qed.

Lemma totalWordCount_cons h2 (sections : list H2ContentData) :
  totalWordCount (h2 :: sections)
  = (wordCount h2 + totalWordCount sections)%Z.
Proof.
  unfold totalWordCount. simpl. rewrite foldl_wordCount_from. lia.
Qed.

(** X11.  In every state the page reaches, a section that is not
    generated has the empty content and the word count 0 (the two are
    only ever written together with [isGenerated]); hence the word
    count that saveStepByStepArticle sums over all sections is the sum
    over the generated ones. *)
Theorem reachable_word_total_is_of_generated (w : World) :
  reachable typeErrorMessage w ->
  Forall (fun h2 => isGenerated h2 = false ->
                    content h2 = [] /\ wordCount h2 = 0%Z)
    (h2Contents (state w))
  /\ totalWordCount (h2Contents (state w))
     = totalWordCount (List.filter isGenerated (h2Contents (state w))).
Proof.
  intros Hw. pose proof (reachable_pending_blank w Hw) as Hblank.
  split; [exact Hblank|].
  induction Hblank as [|h2 l Hh2 Hl IH]; [reflexivity|]. simpl.
  destruct (isGenerated h2) eqn:Hg.
  - rewrite !totalWordCount_cons, IH. reflexivity.
  - rewrite totalWordCount_cons, IH.
    destruct (Hh2 eq_refl) as [_ ->]. lia.
Qed.

End WorldInvariants.

Section GuardInvariant.

Import ArticleGenerator.

Variable typeErrorMessage : list N -> list N.

Lemma guards_for_closed p s :
  guards_for p = Some (guards s) ->
  generationInProgressRef s = false ->
  p = [] /\ isGeneratingAllRef s = false /\ isGeneratingAll s = false.
Proof.
  unfold guards. intros H Hflag. rewrite Hflag in H.
  destruct p as [|[?|?|?] [|? ?]]; simpl in H; try discriminate.
  injection H as <- <-. auto.
Qed.

Lemma guards_for_busy p s :
  guards_for p = Some (guards s) ->
  generationInProgressRef s = true -> exists t, p = [t].
Proof.
  unfold guards. intros H Hflag. rewrite Hflag in H.
  destruct p as [|t [|? ?]]; simpl in H; try discriminate; eauto.
  destruct t; discriminate.
Qed.

Lemma guards_for_lookup p s k t :
  guards_for p = Some (guards s) -> p !! k = Some t ->
  p = [t] /\ k = 0%nat /\ generationInProgressRef s = true.
Proof.
  unfold guards. intros H Hk.
  destruct p as [|t0 [|t1 p']].
  - simpl in Hk. discriminate.
  - destruct k as [|k]; simpl in Hk; [|discriminate].
    injection Hk as ->. split; [reflexivity|]. split; [reflexivity|].
    destruct t; simpl in H; injection H as <- _ _; reflexivity.
  - destruct t0; discriminate H.
Qed.

Lemma step_guards e w :
  guards_for (pending w) = Some (guards (state w)) ->
  guards_for (pending (step typeErrorMessage e w))
  = Some (guards (state (step typeErrorMessage e w))).
Proof.
  destruct w as [s p r]. cbn [pending state]. intros H.
  destruct e; cbn [step pending state].
  - unfold generateH2Content.
    destruct (generationInProgressRef s) eqn:Hflag.
    { state_cbn. cbn [pending option_list]. rewrite app_nil_r. exact H. }
    destruct (guards_for_closed _ _ H Hflag) as (-> & Hall & Hst).
    state_cbn.
    destruct (headingsResponseRef s);
      [destruct (h2ContentsRef s !! h2Index)|];
      state_cbn; cbn [pending option_list app guards_for]; unfold guards;
      state_cbn; rewrite Hall, Hst; reflexivity.
  - unfold generateAllH2Contents.
    destruct (generationInProgressRef s) eqn:Hflag.
    { rewrite !orb_true_r. state_cbn. cbn [pending option_list].
      rewrite app_nil_r. exact H. }
    destruct (guards_for_closed _ _ H Hflag) as (-> & Hall & Hst).
    rewrite Hall, orb_false_l, orb_false_r.
    destruct isGeneratingAll0.
    { state_cbn. cbn [pending option_list app]. exact H. }
    state_cbn.
    destruct (headingsResponseRef s).
    2: { state_cbn. reflexivity. }
    cbn [currentH2Contents].
    destruct (forallb isGenerated (h2ContentsRef s)).
    { state_cbn. reflexivity. }
    unfold generateAll_loop.
    destruct (first_pending _ 0) as [[j h2]|]; state_cbn; reflexivity.
  - destruct (p !! k) as [t|] eqn:Hk; [|exact H].
    destruct (guards_for_lookup _ _ _ _ H Hk) as (-> & -> & Hflag).
    unfold guards in H. simpl in H.
    destruct t as [h2Index request|locals i request|locals i];
      [| |exact H].
    + injection H as _ Hall Hst.
      destruct outcome; state_cbn; cbn [delete]; unfold guards; state_cbn;
        rewrite <- Hall, <- Hst; reflexivity.
    + destruct outcome; state_cbn; cbn [delete]; [|reflexivity].
      exact H.
  - destruct (p !! k) as [t|] eqn:Hk; [|exact H].
    destruct (guards_for_lookup _ _ _ _ H Hk) as (-> & -> & Hflag).
    destruct t as [h2Index request|locals i request|locals i];
      [exact H|exact H|].
    unfold generateAll_resumed, generateAll_loop.
    destruct (first_pending _ (S i)) as [[j h2]|]; state_cbn;
      cbn [delete]; [exact H|reflexivity].
  - exact H.
  - exact H.
  - exact H.
Qed.

(** X12.  In every state the page reaches the three guards say exactly
    what is suspended: with nothing suspended all three are unset (the
    next call is let in), with a generateH2Content call suspended only
    generationInProgressRef is set, and with a bulk run suspended (at a
    request or in a pause) all three are set. *)
Theorem reachable_guards_match_pending (w : World) :
  reachable typeErrorMessage w ->
  guards_for (pending w) = Some (guards (state w)).
Proof.
  induction 1 as [|e w Hw IH]; [reflexivity|].
  apply step_guards. exact IH.
Qed.

End GuardInvariant.

Section GenerationStatements.

Import ArticleGenerator Examples.

Variable typeErrorMessage : list N -> list N.

(** X13.  When the request that generateH2Content made for section [i]
    is fulfilled, section [i] is afterwards generated with the content
    and the word count of the response, is not generating and carries
    no error; the page error is cleared, the in-progress ref is reset,
    and every other section is exactly as before the call. *)
Theorem generateH2Content_success_stores_its_section
    (i : nat) (data : FormData) (s s1 : State)
    (request : H2ContentRequest) (response : H2ContentResponse) :
  generateH2Content typeErrorMessage i data s
  = (s1, Some (SingleAwait i request)) ->
  let s' := generateH2Content_settled i (Fulfilled response) s1 in
  (forall h2, h2Contents s !! i = Some h2 ->
     h2Contents s' !! i
     = Some {| heading := heading h2;
               content := generated_content response;
               wordCount := word_count response;
               isGenerated := true; isGenerating := false;
               error := None |})
  /\ pageError s' = None
  /\ generationInProgressRef s' = false
  /\ (forall j, j <> i -> h2Contents s' !! j = h2Contents s !! j).
Proof.
  intros Hcall s'. subst s'.
  apply generateH2Content_awaits in Hcall as (_ & -> & _).
  state_cbn. split.
  { intros h2 Hh2. rewrite !at_index_lookup_eq, Hh2. reflexivity. }
  split; [reflexivity|]. split; [reflexivity|].
  intros j Hj. rewrite !at_index_lookup_ne by exact Hj. reflexivity.
Qed.

Lemma take_at_index i f (sections : list H2ContentData) :
  take i (at_index i f sections) = take i sections.
Proof.
  apply list_eq. intros j. destruct (decide (j < i)%nat) as [Hlt|Hge].
  - rewrite !lookup_take_lt by exact Hlt.
    apply at_index_lookup_ne. lia.
  - rewrite !lookup_take_ge by lia. reflexivity.
Qed.

(** X14.  A section whose request was rejected can be retried: once the
    effects of the render have run, the next call of generateH2Content
    for the same index is let in, sends a request with the same heading
    and the same previous content, and shows the section as generating
    with its error cleared (its content and generated flag as they
    were). *)
Theorem generateH2Content_retry_after_failure
    (i : nat) (data data' : FormData) (s s1 : State)
    (request : H2ContentRequest) (err : thrown) :
  h2ContentsRef s = h2Contents s ->
  headingsResponseRef s = headingsResponse s ->
  generateH2Content typeErrorMessage i data s
  = (s1, Some (SingleAwait i request)) ->
  exists s2 request',
    generateH2Content typeErrorMessage i data'
      (syncRefs (generateH2Content_settled i (Rejected err) s1))
    = (s2, Some (SingleAwait i request'))
    /\ h2_heading request' = h2_heading request
    /\ previous_content request' = previous_content request
    /\ pageError s2 = None
    /\ (forall h2, h2Contents s !! i = Some h2 ->
          h2Contents s2 !! i
          = Some {| heading := heading h2; content := content h2;
                    wordCount := wordCount h2;
                    isGenerated := isGenerated h2;
                    isGenerating := true; error := None |}).
Proof.
  intros Hsync Hsynch Hcall. pose proof Hcall as Hcall'.
  apply generateH2Content_awaits in Hcall' as (Hflag & -> & _).
  revert Hcall. unfold generateH2Content. rewrite Hflag. state_cbn.
  rewrite Hsync, Hsynch.
  destruct (headingsResponse s) as [response|]; [|discriminate].
  destruct (h2Contents s !! i) as [h2ref|] eqn:Href; [|discriminate].
  intros H. injection H as <-.
  rewrite !at_index_lookup_eq, Href. cbn [fmap option_fmap option_map].
  eexists _, _. split; [reflexivity|]. cbn [h2_heading previous_content].
  split; [reflexivity|].
  split.
  { unfold previousContent. rewrite !take_at_index. reflexivity. }
  split; [reflexivity|].
  intros h2 Hh2. injection Hh2 as <-. state_cbn.
  rewrite !at_index_lookup_eq, Href. reflexivity.
Qed.

(** X15.  A call of generateH2Content made before headings were
    fetched, or for an index that is no section, is let in but sends no
    request: it sets the page error to the engine's TypeError message,
    resets the in-progress ref and leaves every other section as it
    was. *)
Theorem generateH2Content_without_target
    (i : nat) (data : FormData) (s : State) :
  generationInProgressRef s = false ->
  headingsResponseRef s = None \/ h2ContentsRef s !! i = None ->
  exists s' msg,
    generateH2Content typeErrorMessage i data s = (s', None)
    /\ (msg = typeErrorMessage (lit "seo_content")
        \/ msg = typeErrorMessage (lit "heading"))
    /\ pageError s' = Some msg
    /\ generationInProgressRef s' = false
    /\ (forall j, j <> i -> h2Contents s' !! j = h2Contents s !! j).
Proof.
  intros Hflag Hmissing. unfold generateH2Content. rewrite Hflag. state_cbn.
  destruct (headingsResponseRef s) as [response|].
  - destruct Hmissing as [Hm|Hm]; [discriminate|]. rewrite Hm.
    eexists _, _. split; [reflexivity|]. state_cbn.
    split; [right; reflexivity|]. split; [reflexivity|].
    split; [reflexivity|].
    intros j Hj. rewrite !at_index_lookup_ne by exact Hj. reflexivity.
  - eexists _, _. split; [reflexivity|]. state_cbn.
    split; [left; reflexivity|]. split; [reflexivity|].
    split; [reflexivity|].
    intros j Hj. rewrite !at_index_lookup_ne by exact Hj. reflexivity.
Qed.

End GenerationStatements.

Section BulkSuccess.

Import ArticleGenerator Examples.

Variable api : nat -> H2ContentRequest -> Settled.

Lemma runs_outcomes locals i s s' calls :
  generateAll_runs api locals i s s' calls ->
  Forall (fun c => call_outcome c = api (call_index c) (call_request c))
    calls.
Proof.
  induction 1 as [locals i s Hscan
                 |locals i s j h2 err Hscan Hapi
                 |locals i s j h2 response s' calls Hscan Hapi Hruns IH].
  - constructor.
  - repeat constructor. simpl. congruence.
  - constructor; [simpl; congruence|exact IH].
Qed.

Lemma runs_error_kept locals i s s' calls :
  generateAll_runs api locals i s s' calls ->
  Forall (fun c => is_rejected c = false) calls ->
  pageError s' = pageError s.
Proof.
  induction 1 as [locals i s Hscan
                 |locals i s j h2 err Hscan Hapi
                 |locals i s j h2 response s' calls Hscan Hapi Hruns IH];
    intros Hok.
  - reflexivity.
  - inversion Hok as [|? ? Hc _]; subst. discriminate Hc.
  - inversion Hok as [|? ? _ Hok']; subst. rewrite (IH Hok'). reflexivity.
Qed.

Lemma pending_indices_complete rest i k h2 :
  rest !! k = Some h2 -> isGenerated h2 = false ->
  (i + k)%nat ∈ pending_indices rest i.
Proof.
  revert i k. induction rest as [|h rest' IH]; intros i k Hk Hg;
    [discriminate|].
  destruct k as [|k]; simpl in *.
  - injection Hk as ->. rewrite Hg, Nat.add_0_r. apply list_elem_of_here.
  - replace (i + S k)%nat with (S i + k)%nat by lia.
    destruct (isGenerated h); [|apply list_elem_of_further];
      apply IH; assumption.
Qed.

(** X16.  When no run is in progress, headings are fetched, the refs
    hold the current state and the service fulfils every request, a run
    of generateAllH2Contents requests exactly the sections that were not
    generated, in index order, and ends with every section generated,
    the step set to the complete article, the page error untouched and
    the three guards reset; the sections generated before the run are
    as they were. *)
Theorem generateAllH2Contents_completes
    (data : FormData) (s : State) (response : HeadingsGenerationResponse) :
  generationInProgressRef s = false ->
  isGeneratingAllRef s = false ->
  headingsResponseRef s = Some response ->
  h2ContentsRef s = h2Contents s ->
  (forall i request, exists answer, api i request = Fulfilled answer) ->
  exists s' calls,
    generateAllH2Contents_run api false data s = Some (s', calls)
    /\ call_index <$> calls = pending_indices (h2Contents s) 0
    /\ Forall (fun h2 => isGenerated h2 = true) (h2Contents s')
    /\ length (h2Contents s') = length (h2Contents s)
    /\ (forall j h2, h2Contents s !! j = Some h2 -> isGenerated h2 = true ->
          h2Contents s' !! j = Some h2)
    /\ generationStep s' = step_content
    /\ pageError s' = pageError s
    /\ guards s' = (false, false, false).
Proof.
  intros Hflag Hall Hhead Hsync Hapi.
  unfold generateAllH2Contents_run, generateAllH2Contents.
  rewrite Hflag, Hall. cbn [orb]. state_cbn. rewrite Hhead, Hsync.
  cbn [currentH2Contents].
  destruct (forallb isGenerated (h2Contents s)) eqn:Hevery.
  { rewrite generateAll_drive_ended. eexists _, _. split; [reflexivity|].
    state_cbn. split.
    { symmetry. clear -Hevery. generalize 0%nat.
      induction (h2Contents s) as [|h l IH]; intros n; [reflexivity|].
      simpl in *. apply andb_true_iff in Hevery as [-> Hl]. apply IH, Hl. }
    split.
    { apply Forall_forall. intros h2 Hin.
      rewrite forallb_forall in Hevery. apply Hevery.
      apply list_elem_of_In. exact Hin. }
    repeat split; auto. }
  match goal with
  | |- context [generateAll_loop ?locals 0%nat ?s1] =>
      destruct (generateAll_drive_runs api (length (h2Contents s))
                  locals 0%nat s1) as (s' & calls & Hdrive & Hruns);
        [cbn [currentH2Contents]; lia|]
  end.
  rewrite Hdrive. exists s', calls. split; [reflexivity|].
  assert (Forall (fun c => is_rejected c = false) calls) as Hok.
  { eapply List.Forall_impl; [|apply (runs_outcomes _ _ _ _ _ Hruns)].
    intros c Hc. simpl in Hc. unfold is_rejected. rewrite Hc.
    destruct (Hapi (call_index c) (call_request c)) as [answer ->].
    reflexivity. }
  destruct (runs_all_fulfilled _ _ _ _ _ _ Hruns Hok) as [Hidx Hstep].
  cbn [currentH2Contents] in Hidx. rewrite drop_0 in Hidx.
  assert (h2Contents s' = foldl call_effect (h2Contents s) calls) as Hfold
    by exact (runs_sections _ _ _ _ _ _ Hruns).
  state_cbn.
  pose proof (StronglySorted_lt_NoDup _
                (prefix_StronglySorted _ _
                   (runs_indices_prefix _ _ _ _ _ _ Hruns)
                   (pending_indices_sorted _ _))) as Hnd.
  assert (forall j h2,
             h2Contents s !! j = Some h2 -> isGenerated h2 = true ->
             j ∉ call_index <$> calls) as Hskipped.
  { intros j h2 Hj Hg Hin. rewrite Hidx in Hin.
    destruct (pending_indices_elem _ _ _ Hin) as (k & h2' & Hk & Hl & Hg').
    simpl in Hk. subst k. congruence. }
  split; [exact Hidx|].
  split.
  { apply Forall_lookup. intros j h2' Hj. rewrite Hfold in Hj.
    destruct (decide (j ∈ call_index <$> calls)) as [Hin|Hout].
    - apply list_elem_of_fmap in Hin as (c & -> & Hc).
      rewrite foldl_call_effect_touched in Hj by assumption.
      rewrite call_effect_lookup_eq in Hj.
      rewrite Forall_forall in Hok. specialize (Hok c Hc).
      unfold is_rejected in Hok.
      destruct (call_outcome c); [|discriminate].
      destruct (h2Contents s !! call_index c); simpl in Hj; [|discriminate].
      injection Hj as <-. reflexivity.
    - rewrite foldl_call_effect_untouched in Hj by exact Hout.
      destruct (isGenerated h2') eqn:Hg; [reflexivity|].
      exfalso. apply Hout. rewrite Hidx.
      apply (pending_indices_complete _ 0%nat j h2' Hj Hg). }
  split.
  { rewrite Hfold. generalize (h2Contents s). clear.
    induction calls as [|c calls IH]; intros l; [reflexivity|].
    simpl. rewrite IH. unfold call_effect.
    destruct (call_outcome c); rewrite !at_index_length; reflexivity. }
  split.
  { intros j h2 Hj Hg. rewrite Hfold.
    rewrite foldl_call_effect_untouched by (eapply Hskipped; eassumption).
    exact Hj. }
  split; [exact Hstep|].
  split; [apply (runs_error_kept _ _ _ _ _ Hruns Hok)|].
  destruct (runs_flags _ _ _ _ _ _ Hruns) as (F1 & F2 & F3).
  unfold guards. rewrite F1, F2, F3. reflexivity.
Qed.

End BulkSuccess.

Section SaveStatements.

Import ArticleGenerator.

Variable toLowerCase : list N -> list N.
Variable JSON_parse
  : list N -> Completion (list ClientStorage.ClientArticleMetadata).
Variable JSON_stringify : list ClientStorage.ClientArticleMetadata -> list N.

Lemma completeArticle_truthy s response :
  headingsResponse s = Some response -> truthy (completeArticle s) = true.
Proof.
  intros H. unfold completeArticle. rewrite H, join_cons. reflexivity.
Qed.

Lemma string_or_empty text : ClientStorage.string_or (Some text) [] = text.
Proof. destruct text; reflexivity. Qed.

(** X17.  saveStepByStepArticle returns at its guard exactly when no
    headings are fetched, and then changes nothing.  With headings it
    always goes on: the assembled article is never the empty string, so
    an article can be saved before any section is generated. *)
Theorem saveStepByStepArticle_skips_iff_no_headings
    (backend : SaveSettled) (data : FormData) (now : list N) (s : State)
    (localStorage : gmap (list N) (list N)) :
  (headingsResponse s = None ->
   saveStepByStepArticle toLowerCase JSON_parse JSON_stringify backend data
     now s localStorage = (SaveSkipped, s, localStorage))
  /\ ((saveStepByStepArticle toLowerCase JSON_parse JSON_stringify backend
         data now s localStorage).1.1 = SaveSkipped ->
      headingsResponse s = None).
Proof.
  unfold saveStepByStepArticle. split.
  - intros ->. reflexivity.
  - destruct (headingsResponse s) as [response|] eqn:Hh; [|reflexivity].
    rewrite (completeArticle_truthy s response Hh). cbn [negb].
    destruct backend as [answer|err].
    + destruct (success answer); discriminate.
    + destruct (ClientStorage.saveClientArticle _ _ _ _ _ _ _ _)
        as [[slug0|e] st]; discriminate.
Qed.

(** X18.  When the save service rejects the request and the local
    collection can be read, saveStepByStepArticle saves the article
    locally and sends the user to the edit page of the slug of the H1
    heading; under that slug getClientArticleBySlug then returns a
    record whose title is the H1 heading, whose content is the
    assembled article, whose word count is the total of the sections
    and whose meta description is that of the headings; and the page
    that loads this slug while the service is still down shows that
    record and no error. *)
Theorem saveStepByStepArticle_local_fallback
    (err : thrown) (data : FormData) (now : list N) (s : State)
    (localStorage : gmap (list N) (list N))
    (response : HeadingsGenerationResponse)
    (articles : list ClientStorage.ClientArticleMetadata) :
  (forall l, JSON_parse (JSON_stringify l) = Normal l) ->
  (forall l, JSON_stringify l <> []) ->
  headingsResponse s = Some response ->
  ClientStorage.stored_articles JSON_parse localStorage = Normal articles ->
  let h1 := h1_heading (seo_content response) in
  let slug0 := ClientStorage.createSlug toLowerCase h1 in
  exists localStorage' article,
    saveStepByStepArticle toLowerCase JSON_parse JSON_stringify
      (SaveRejected err) data now s localStorage
    = (SaveNavigated slug0, setError None s, localStorage')
    /\ ClientStorage.getClientArticleBySlug JSON_parse slug0 localStorage'
       = Normal (Some article)
    /\ ClientStorage.title article = Some h1
    /\ ClientStorage.content article = Some (completeArticle s)
    /\ ClientStorage.wordCount article = totalWordCount (h2Contents s)
    /\ ClientStorage.metaDescription article
       = Some (meta_description (seo_content response))
    /\ ClientStorage.topic article = topic data
    /\ ClientStorage.keywords article = parseKeywords (keywords data)
    /\ (forall err' page,
          ArticlePage.loadArticle JSON_parse (ArticlePage.LoadRejected err')
            slug0 localStorage' page
          = {| ArticlePage.article := Some article;
               ArticlePage.error := None |}).
Proof.
  intros Hrt Hne Hh Hst h1 slug0. subst h1 slug0.
  unfold saveStepByStepArticle. rewrite Hh.
  rewrite (completeArticle_truthy s response Hh). cbn [negb].
  unfold ClientStorage.saveClientArticle. rewrite Hst.
  eexists _, _. split; [reflexivity|].
  match goal with
  | |- context [ClientStorage.upsert ?a articles] => set (saved := a)
  end.
  assert (ClientStorage.getClientArticleBySlug JSON_parse
            (ClientStorage.slug saved)
            (<[ClientStorage.STORAGE_KEY :=
                 JSON_stringify (ClientStorage.upsert saved articles)]>
               localStorage)
          = Normal (Some saved)) as Hget.
  { rewrite getClientArticleBySlug_written by auto. f_equal.
    exact (find_upsert_same saved articles). }
  split; [exact Hget|].
  assert (ClientStorage.metaDescription saved
          = Some (meta_description (seo_content response))) as Hmeta
    by (cbn; f_equal; apply string_or_empty).
  assert (ClientStorage.topic saved = topic data) as Htopic
    by apply string_or_empty.
  split; [reflexivity|]. split; [reflexivity|]. split; [reflexivity|].
  split; [exact Hmeta|]. split; [exact Htopic|]. split; [reflexivity|].
  intros err' page. unfold ArticlePage.loadArticle.
  cbn [ArticlePage.article ArticlePage.error].
  change (ClientStorage.createSlug toLowerCase
            (h1_heading (seo_content response)))
    with (ClientStorage.slug saved).
  rewrite Hget. reflexivity.
Qed.

(** X19.  When the save service rejects the request and the item under
    the storage key is a text that JSON.parse rejects, nothing is
    written: saveStepByStepArticle shows the parse error, sets it as
    the page error and leaves the storage as it was. *)
Theorem saveStepByStepArticle_unreadable_store
    (err : thrown) (data : FormData) (now : list N) (s : State)
    (localStorage : gmap (list N) (list N))
    (response : HeadingsGenerationResponse) (text message : list N) :
  headingsResponse s = Some response ->
  localStorage !! ClientStorage.STORAGE_KEY = Some text ->
  text <> [] ->
  JSON_parse text = Throw (Error_instance message) ->
  saveStepByStepArticle toLowerCase JSON_parse JSON_stringify
    (SaveRejected err) data now s localStorage
  = (SaveFailed message, setError (Some message) (setError None s),
     localStorage).
Proof.
  intros Hh Hget Htext Hparse.
  unfold saveStepByStepArticle. rewrite Hh.
  rewrite (completeArticle_truthy s response Hh). cbn [negb].
  unfold ClientStorage.saveClientArticle, ClientStorage.stored_articles.
  rewrite Hget. destruct text as [|c t]; [congruence|].
  cbn [truthy]. rewrite Hparse. reflexivity.
Qed.

End SaveStatements.

(** ** The editor and the article page *)

Section EditorStatements.

Import ArticleEditor.

Lemma substring_inner (s : list N) (a b : nat) :
  (a <= b)%nat -> (b <= length s)%nat ->
  substring s a b = take (b - a) (drop a s).
Proof.
  intros Hab Hb. unfold substring.
  rewrite (Nat.min_l a), (Nat.min_l b) by lia.
  rewrite Nat.max_r, Nat.min_l by lia. reflexivity.
Qed.

Lemma substring_prefix (s : list N) (a : nat) :
  (a <= length s)%nat -> substring s 0 a = take a s.
Proof.
  intros Ha. rewrite substring_inner by lia.
  rewrite drop_0, Nat.sub_0_r. reflexivity.
Qed.

(** X20.  applyParaphrase replaces exactly the selected span: for a
    selection that lies within the content, the text before the
    selection and the text after it are kept, the chosen paraphrase
    stands between them, ending at the position the cursor is given,
    and the title and the meta description are untouched. *)
Theorem applyParaphrase_replaces_selection
    (start end_ : nat) (paraphrasedText : list N) (d : Draft) :
  (start <= end_)%nat -> (end_ <= length (content d))%nat ->
  exists d' cursor,
    applyParaphrase (Some (start, end_)) paraphrasedText d
    = (d', Some cursor)
    /\ cursor = (start + length paraphrasedText)%nat
    /\ content d'
       = take start (content d) ++ paraphrasedText ++ drop end_ (content d)
    /\ substring (content d') 0 start = substring (content d) 0 start
    /\ substring (content d') start cursor = paraphrasedText
    /\ substring_from (content d') cursor
       = substring_from (content d) end_
    /\ length (content d')
       = (length (content d) - (end_ - start) + length paraphrasedText)%nat
    /\ title d' = title d /\ metaDescription d' = metaDescription d.
Proof.
  intros Hse Hel. eexists _, _. split; [reflexivity|].
  cbn [content title metaDescription]. unfold substring_from.
  set (c := content d) in *.
  rewrite (substring_prefix c start) by lia.
  set (new := take start c ++ paraphrasedText ++ drop end_ c).
  assert (length (take start c) = start) as Hlt
    by (rewrite length_take; lia).
  assert (length new
          = (length c - (end_ - start) + length paraphrasedText)%nat) as Hlen.
  { unfold new. rewrite !length_app, Hlt, length_drop. lia. }
  split; [reflexivity|]. split; [reflexivity|].
  split.
  { rewrite substring_prefix by lia.
    unfold new. rewrite take_app_le by lia.
    rewrite take_take. f_equal. lia. }
  split.
  { rewrite substring_inner by lia.
    unfold new. rewrite drop_app_length' by (symmetry; exact Hlt).
    replace (start + length paraphrasedText - start)%nat
      with (length paraphrasedText) by lia.
    rewrite take_app_length. reflexivity. }
  split.
  { unfold new. rewrite app_assoc.
    rewrite drop_app_length'; [reflexivity|].
    rewrite length_app, Hlt. reflexivity. }
  split; [exact Hlen|]. split; reflexivity.
Qed.

Lemma applyParaphrase_replaces_selection_witness :
  (applyParaphrase (Some (6, 11)%nat) (lit "planet")
     {| title := lit "T"; content := lit "hello world!";
        metaDescription := lit "m" |}).1
  = {| title := lit "T"; content := lit "hello planet!";
       metaDescription := lit "m" |}.
Proof.
  destruct (applyParaphrase_replaces_selection 6 11 (lit "planet")
              {| title := lit "T"; content := lit "hello world!";
                 metaDescription := lit "m" |})
    as (d' & cursor & Happly & _); [simpl; lia|simpl; lia|].
  reflexivity.
Defined.

(** X21.  Choosing a paraphrase equal to the selected text leaves the
    working copy as it is. *)
Theorem applyParaphrase_same_text (start end_ : nat) (d : Draft) :
  (start <= end_)%nat -> (end_ <= length (content d))%nat ->
  (applyParaphrase (Some (start, end_))
     (substring (content d) start end_) d).1 = d.
Proof.
  intros Hse Hel. destruct d as [t c m]. cbn [content] in *.
  unfold applyParaphrase, substring_from.
  cbn [fst content title metaDescription]. f_equal.
  rewrite substring_prefix, substring_inner by lia.
  rewrite <- (take_drop start c) at 4. f_equal.
  rewrite <- (take_drop (end_ - start) (drop start c)) at 2.
  rewrite drop_drop. replace (start + (end_ - start))%nat with end_ by lia.
  reflexivity.
Qed.

Lemma applyParaphrase_same_text_witness :
  (applyParaphrase (Some (6, 11)%nat) (lit "world")
     {| title := lit "T"; content := lit "hello world!";
        metaDescription := lit "m" |}).1
  = {| title := lit "T"; content := lit "hello world!";
       metaDescription := lit "m" |}.
Proof.
  apply (applyParaphrase_same_text 6 11
           {| title := lit "T"; content := lit "hello world!";
              metaDescription := lit "m" |}); simpl; lia.
Defined.



End EditorStatements.

Section PageStatements.

Import ArticlePage.

Variable JSON_parse
  : list N -> Completion (list ClientStorage.ClientArticleMetadata).

(** X23.  When the article service rejects the request, loadArticle
    shows the record that getClientArticleBySlug finds, with no error;
    when it finds none (no item, an unreadable item, or no such slug)
    the page keeps the article it had and shows "Article not found".
    It shows no other error. *)
Theorem loadArticle_falls_back_to_local
    (err : thrown) (slug0 : list N)
    (localStorage : gmap (list N) (list N)) (page : PageState) :
  match ClientStorage.getClientArticleBySlug JSON_parse slug0 localStorage
  with
  | Normal (Some clientArticle) =>
      loadArticle JSON_parse (LoadRejected err) slug0 localStorage page
      = {| article := Some clientArticle; error := None |}
  | Normal None =>
      loadArticle JSON_parse (LoadRejected err) slug0 localStorage page
      = {| article := article page;
           error := Some (lit "Article not found") |}
  | Throw _ => False
  end.
Proof.
  unfold loadArticle.
  destruct (getClientArticleBySlug_returns JSON_parse slug0 localStorage)
    as [found ->].
  destruct found; reflexivity.
Qed.

End PageStatements.

Section FurtherWitnesses.

Import ArticleGenerator Examples.

Lemma world_generating_reachable :
  reachable sample_typeErrorMessage world_generating.
Proof. repeat constructor. Qed.

Lemma world_empty_answer_reachable :
  reachable sample_typeErrorMessage world_empty_answer.
Proof. repeat constructor. Qed.

Lemma reachable_sections_mirror_headings_witness :
  heading <$> h2Contents (state world_empty_answer)
  = [lit "Beans"; lit "Brewing"].
Proof.
  exact (reachable_sections_mirror_headings sample_typeErrorMessage
           world_empty_answer world_empty_answer_reachable).
Defined.

Lemma reachable_word_total_is_of_generated_witness :
  totalWordCount (h2Contents (state world_empty_answer))
  = totalWordCount
      (List.filter isGenerated (h2Contents (state world_empty_answer))).
Proof.
  exact (proj2 (reachable_word_total_is_of_generated
                  sample_typeErrorMessage world_empty_answer
                  world_empty_answer_reachable)).
Defined.

Lemma reachable_guards_match_pending_witness :
  Some (true, false, false) = Some (guards (state world_generating)).
Proof.
  exact (reachable_guards_match_pending sample_typeErrorMessage
           world_generating world_generating_reachable).
Defined.

Lemma generateH2Content_success_stores_its_section_witness :
  exists s1 request,
    generateH2Content sample_typeErrorMessage 0 sample_form
      (state world_with_headings) = (s1, Some (SingleAwait 0 request))
    /\ (isGenerated
          <$> h2Contents
                (generateH2Content_settled 0
                   (Fulfilled {| generated_content := lit "Arabica";
                                 word_count := 1 |}) s1))
       = [true; false]
    /\ (forall j, j <> 0%nat ->
          h2Contents
            (generateH2Content_settled 0
               (Fulfilled {| generated_content := lit "Arabica";
                             word_count := 1 |}) s1) !! j
          = h2Contents (state world_with_headings) !! j).
Proof.
  eexists _, _. split; [reflexivity|]. split; [reflexivity|].
  exact (proj2 (proj2 (proj2
           (generateH2Content_success_stores_its_section
              sample_typeErrorMessage 0 sample_form
              (state world_with_headings) _ _
              {| generated_content := lit "Arabica"; word_count := 1 |}
              eq_refl)))).
Defined.

Lemma generateH2Content_retry_after_failure_witness :
  exists s1 request s2 request',
    generateH2Content sample_typeErrorMessage 1 sample_form
      (state world_with_headings) = (s1, Some (SingleAwait 1 request))
    /\ generateH2Content sample_typeErrorMessage 1 sample_form
         (syncRefs
            (generateH2Content_settled 1
               (Rejected (Error_instance (lit "Network Error"))) s1))
       = (s2, Some (SingleAwait 1 request'))
    /\ h2_heading request' = h2_heading request.
Proof.
  eexists _, _.
  destruct (generateH2Content_retry_after_failure sample_typeErrorMessage
              1 sample_form sample_form (state world_with_headings) _ _
              (Error_instance (lit "Network Error")) eq_refl eq_refl
              eq_refl) as (s2 & request' & Hcall & Hheading & _).
  exists s2, request'. split; [reflexivity|].
  split; [exact Hcall|exact Hheading].
Defined.

Lemma generateH2Content_without_target_witness :
  exists s' msg,
    generateH2Content sample_typeErrorMessage 0 sample_form mounted
    = (s', None)
    /\ pageError s' = Some msg
    /\ generationInProgressRef s' = false.
Proof.
  destruct (generateH2Content_without_target sample_typeErrorMessage 0
              sample_form mounted eq_refl (or_introl eq_refl))
    as (s' & msg & Hcall & _ & Herr & Hflag & _).
  exists s', msg. auto.
Defined.

Lemma generateAllH2Contents_completes_witness :
  exists s' calls,
    generateAllH2Contents_run api_ok false sample_form
      (state world_with_headings) = Some (s', calls)
    /\ Forall (fun h2 => isGenerated h2 = true) (h2Contents s')
    /\ generationStep s' = step_content.
Proof.
  destruct (generateAllH2Contents_completes api_ok sample_form
              (state world_with_headings) sample_headings
              eq_refl eq_refl eq_refl eq_refl
              (fun i request => ex_intro _ _ eq_refl))
    as (s' & calls & Hrun & _ & Hall & _ & _ & Hstep & _).
  exists s', calls. auto.
Defined.

Lemma saveStepByStepArticle_local_fallback_witness :
  exists localStorage' article,
    saveStepByStepArticle ClientStorage.toLowerCase_ascii JSON_parse_code
      JSON_stringify_code
      (SaveRejected (Error_instance (lit "Network Error"))) sample_form
      sample_now (state world_with_headings) ∅
    = (SaveNavigated (lit "coffee"),
       setError None (state world_with_headings), localStorage')
    /\ ClientStorage.getClientArticleBySlug JSON_parse_code (lit "coffee")
         localStorage' = Normal (Some article)
    /\ ClientStorage.content article = Some (lit "# Coffee").
Proof.
  destruct (saveStepByStepArticle_local_fallback
              ClientStorage.toLowerCase_ascii JSON_parse_code
              JSON_stringify_code (Error_instance (lit "Network Error"))
              sample_form sample_now (state world_with_headings) ∅
              sample_headings [] JSON_code_roundtrip JSON_code_nonempty
              eq_refl stored_articles_empty)
    as (localStorage' & article & Hsave & Hget & _ & Hcontent & _).
  exists localStorage', article. auto.
Defined.

Lemma saveStepByStepArticle_unreadable_store_witness :
  saveStepByStepArticle ClientStorage.toLowerCase_ascii
    ClientStorage.JSON_parse_empty ClientStorage.JSON_stringify_empty
    (SaveRejected (Error_instance (lit "Network Error"))) sample_form
    sample_now (state world_with_headings) store_not_json
  = (SaveFailed (lit "SyntaxError"),
     setError (Some (lit "SyntaxError"))
       (setError None (state world_with_headings)),
     store_not_json).
Proof.
  apply (saveStepByStepArticle_unreadable_store
           ClientStorage.toLowerCase_ascii ClientStorage.JSON_parse_empty
           ClientStorage.JSON_stringify_empty
           (Error_instance (lit "Network Error")) sample_form sample_now
           (state world_with_headings) store_not_json sample_headings
           (lit "{oops") (lit "SyntaxError"));
    [reflexivity|reflexivity|discriminate|reflexivity].
Defined.

End FurtherWitnesses.

(** ** The shape of a slug, and a fresh session *)

Section SlugShape.

Import ClientStorage.

Lemma collapse_from_two_separators b pre x y post :
  is_separator x = true -> is_separator y = true ->
  (length (collapse_from b (pre ++ x :: y :: post))
   < length (pre ++ x :: y :: post))%nat.
Proof.
  intros Hx Hy. revert b. induction pre as [|c pre IH]; intros b.
  - simpl. rewrite Hx, Hy.
    pose proof (collapse_from_length true post).
    destruct b; simpl; lia.
  - simpl. pose proof (IH true). pose proof (IH false).
    destruct (is_separator c); [destruct b|]; simpl; lia.
Qed.

Lemma drop_while_end_last_false p s :
  match last (drop_while_end p s) with
  | None => True
  | Some c => p c = false
  end.
Proof.
  induction s as [|c t IH]; simpl; [exact I|].
  destruct (drop_while_end p t) as [|c' t'] eqn:E.
  - destruct (p c) eqn:Hc; simpl; [exact I|exact Hc].
  - rewrite last_cons. destruct (last (c' :: t')) eqn:El; [exact IH|].
    apply last_None in El. discriminate El.
Qed.

(** X24.  A slug is safe to put in a URL path: every unit is a
    lowercase ASCII letter, an ASCII digit or a hyphen; it does not
    begin or end with a hyphen; and it has no two hyphens in a row. *)
Theorem createSlug_url_safe (toLowerCase : list N -> list N)
    (title : list N) :
  (forall s, Forall (fun c => is_upper c = false) (toLowerCase s)) ->
  Forall (fun c => c = HYPHEN \/ (is_lower c || is_digit c) = true)
    (createSlug toLowerCase title)
  /\ head (createSlug toLowerCase title) <> Some HYPHEN
  /\ last (createSlug toLowerCase title) <> Some HYPHEN
  /\ (forall pre post,
        createSlug toLowerCase title <> pre ++ [HYPHEN; HYPHEN] ++ post).
Proof.
  intros Hcap. split; [apply createSlug_units, Hcap|].
  split.
  { unfold createSlug, trim_hyphens.
    pose proof (drop_while_head_false is_hyphen
                  (collapse_separators
                     (strip_special (toLowerCase title)))) as Hh.
    destruct (drop_while is_hyphen _) as [|c t]; [discriminate|].
    rewrite (drop_while_end_head _ _ _ Hh). simpl.
    intros H. injection H as ->. discriminate Hh. }
  split.
  { unfold createSlug, trim_hyphens.
    pose proof (drop_while_end_last_false is_hyphen
                  (drop_while is_hyphen
                     (collapse_separators
                        (strip_special (toLowerCase title))))) as Hl.
    destruct (last _) as [c|]; [|discriminate].
    intros H. injection H as ->. discriminate Hl. }
  intros pre post Heq.
  pose proof (createSlug_collapsed toLowerCase title) as Hfix.
  unfold collapse_separators in Hfix. rewrite Heq in Hfix.
  pose proof (collapse_from_two_separators false pre HYPHEN HYPHEN post
                eq_refl eq_refl) as Hlt.
  simpl app in Hfix. rewrite Hfix in Hlt. lia.
Qed.

Lemma createSlug_url_safe_witness :
  head (createSlug toLowerCase_ascii (lit "--Hello,  World!--"))
  <> Some HYPHEN
  /\ last (createSlug toLowerCase_ascii (lit "--Hello,  World!--"))
     <> Some HYPHEN.
Proof.
  pose proof (createSlug_url_safe toLowerCase_ascii
                (lit "--Hello,  World!--") toLowerCase_ascii_no_capital)
    as (_ & H1 & H2 & _).
  split; [exact H1|exact H2].
Defined.

End SlugShape.

Section FreshSession.

Import ArticleGenerator.

(** X25.  When headings arrive, whatever the page held before, there is
    one section per H2 heading, each not generated, not generating,
    without error, with empty content and word count 0, and the
    assembled article is the H1 line alone. *)
Theorem generateHeadings_starts_fresh
    (response : HeadingsGenerationResponse) (s : State) :
  let s' := generateHeadings_fulfilled response s in
  length (h2Contents s') = length (h2_headings (seo_content response))
  /\ (forall i heading0,
        h2_headings (seo_content response) !! i = Some heading0 ->
        h2Contents s' !! i
        = Some {| heading := heading0; content := []; wordCount := 0%Z;
                  isGenerated := false; isGenerating := false;
                  error := None |})
  /\ completeArticle s' = lit "# " ++ h1_heading (seo_content response)
  /\ generationStep s' = step_headings.
Proof.
  intros s'. subst s'. state_cbn.
  split; [apply length_map|].
  split.
  { intros i heading0 Hi.
    change (List.map ?f ?l) with (f <$> l).
    rewrite list_lookup_fmap, Hi. reflexivity. }
  split; [|reflexivity].
  unfold completeArticle. state_cbn.
  induction (h2_headings (seo_content response)) as [|h l IH];
    [reflexivity|exact IH].
Qed.

End FreshSession.
